(** * react-native-twc: the wrapper factory of [src/index.tsx]

    A shallow embedding of [createTwc] and of the helpers it is built on
    ([filterProps], [flattenStyle], [mergeStyles], [mergePropsWithAttrs]),
    followed by the properties of the prop / attrs / style resolution
    pipeline that every wrapped component runs on each render.

    Conventions of the embedding:
    - a JavaScript value is a [value]; objects are association lists in
      property-insertion order. Three things JavaScript and React do with
      particular property names are not modelled: integer-like keys are
      enumerated before the others, an assignment to [__proto__] sets the
      prototype, and React takes [ref] and [key] out of an element's
      props. Statements about key order or about every property name
      exclude these names ([ordinary_key]); the others read single
      properties, where only the last two matter and only for these names;
    - function objects stored inside values are references [VFun id] into a
      table [funs] of function objects (source text and behaviour);
    - the callbacks a render invokes ([attrs], [shouldForwardProp], the class
      function, [compose], the children renderer) are logged in call order
      by a small writer monad, so that what a callback received is
      observable;
    - wrapped components are heap objects: a component reference is its
      index in the heap, which gives reference equality its meaning. *)

From Stdlib Require Import ZArith String Ascii List Bool Lia.
From stdpp Require Import base option strings pretty gmap.
Import ListNotations.

Local Open Scope string_scope.
Local Open Scope list_scope.

(** ** JavaScript values *)

Set Warnings "-register-all".

(** Numbers are the integer-valued ones (class names, paddings, indices)
    of magnitude below 1e21, which print in plain decimal; larger and
    fractional numbers, [NaN] and symbols are outside the model. *)
Inductive value : Type :=
| VUndefined
| VNull
| VBool (b : bool)
| VNum (n : Z)
| VStr (s : string)
| VArr (items : list value)
| VObj (entries : list (string * value))
| VFun (id : nat).

(** An object ([Record<string, any>]): its own enumerable properties in
    insertion order. *)
Abbreviation obj := (list (string * value)).

(** A function object: what [toString()] prints and what a call returns. *)
Record jsfun : Type := {
  fn_source : string;
  fn_call : value -> value
}.

(** ** Objects as insertion-ordered property lists *)

Section Properties.
Context {A : Type}.

(** [o[k]] as an own-property lookup. *)
Fixpoint obj_get (o : list (string * A)) (k : string) : option A :=
  match o with
  | [] => None
  | (k', v) :: o' => if String.eqb k' k then Some v else obj_get o' k
  end.

(** [o[k] = v]: an existing key keeps its position, a new key is
    appended. *)
Fixpoint obj_set (k : string) (v : A) (o : list (string * A)) : list (string * A) :=
  match o with
  | [] => [(k, v)]
  | (k', v') :: o' =>
      if String.eqb k' k then (k, v) :: o' else (k', v') :: obj_set k v o'
  end.

(** Object rest destructuring drops a key. *)
Definition obj_del (k : string) (o : list (string * A)) : list (string * A) :=
  List.filter (fun kv => negb (String.eqb (fst kv) k)) o.

(** [Object.keys(o)]. *)
Definition obj_keys (o : list (string * A)) : list string := List.map fst o.

(** [k in o] for own properties. *)
Definition obj_has (o : list (string * A)) (k : string) : bool :=
  match obj_get o k with Some _ => true | None => false end.
End Properties.

(** [o.k]: reading a missing property gives [undefined]. *)
Definition prop (o : obj) (k : string) : value :=
  match obj_get o k with Some v => v | None => VUndefined end.

(** Copying the own properties of [src] onto [target], as the object spread
    [{ ...target, ...src }] does after [target] was copied: every key of
    [src], in order, is assigned [src[key]]. A new key goes last, which is
    where JavaScript enumerates it unless it is integer-like. *)
Definition copy_props {A : Type} (target src : list (string * A)) : list (string * A) :=
  fold_left
    (fun acc k => match obj_get src k with
                  | Some v => obj_set k v acc
                  | None => acc
                  end)
    (obj_keys src) target.

(** Index keys ["0"], ["1"], ... of an array or string being spread. *)
Fixpoint indexed {A : Type} (i : nat) (l : list A) : list (string * A) :=
  match l with
  | [] => []
  | x :: l' => (pretty i, x) :: indexed (S i) l'
  end.

Fixpoint chars (s : string) : list value :=
  match s with
  | EmptyString => []
  | String c s' => VStr (String c EmptyString) :: chars s'
  end.

(** The own enumerable properties a spread [...v] copies: nothing for
    [undefined], [null], booleans, numbers and plain functions. *)
Definition own_props (v : value) : obj :=
  match v with
  | VObj o => o
  | VArr l => indexed 0 l
  | VStr s => indexed 0 (chars s)
  | _ => []
  end.

(** The object literal [{ ...a, ...b }]. *)
Definition spread2 (a b : value) : obj :=
  copy_props (copy_props [] (own_props a)) (own_props b).

(** ** Coercions *)

(** [v == null]. *)
Definition is_nullish (v : value) : bool :=
  match v with
  | VUndefined | VNull => true
  | _ => false
  end.

(** [typeof v === 'function']. *)
Definition is_function (v : value) : bool :=
  match v with
  | VFun _ => true
  | _ => false
  end.

(** [ToBoolean]. *)
Definition truthy (v : value) : bool :=
  match v with
  | VUndefined | VNull => false
  | VBool b => b
  | VNum n => negb (Z.eqb n 0)
  | VStr s => negb (String.eqb s "")
  | VArr _ | VObj _ | VFun _ => true
  end.

Fixpoint join (sep : string) (l : list string) : string :=
  match l with
  | [] => ""
  | [s] => s
  | s :: l' => s ++ sep ++ join sep l'
  end.

Section Coercions.
Variable funs : nat -> jsfun.

(** [ToString], as string concatenation and [String.raw] apply it. An
    array prints its elements separated by commas, with [null] and
    [undefined] elements printed as nothing. *)
Fixpoint to_string (v : value) : string :=
  match v with
  | VUndefined => "undefined"
  | VNull => "null"
  | VBool true => "true"
  | VBool false => "false"
  | VNum n => pretty n
  | VStr s => s
  | VArr l =>
      join ","
        (List.map (fun x => if is_nullish x then "" else to_string x) l)
  | VObj _ => "[object Object]"
  | VFun id => fn_source (funs id)
  end.

(** [String.raw({ raw: strings }, ...values)]: the fragments in order,
    each but the last followed by the next substitution while there is
    one. *)
Fixpoint string_raw (strings : list string) (values : list value) : string :=
  match strings with
  | [] => ""
  | [s] => s
  | s :: rest =>
      match values with
      | [] => s ++ string_raw rest []
      | v :: vs => s ++ to_string v ++ string_raw rest vs
      end
  end.
End Coercions.

(** ** The default class composer

    [clsx] is an external package; the factory only needs its documented
    behaviour. *)

(** [str && (str += ' '); str += y]. *)
Definition add_class (str y : string) : string :=
  if String.eqb str "" then y else (str ++ " " ++ y)%string.

(** Modelled from the spec: the default [compose] ([clsx]), whose code is
    not part of the repository. It is the falsy-value-filtering,
    array-flattening, space-joining combinator: a string or number is
    taken as is, a sequence contributes its truthy items recursively, a
    mapping contributes the keys whose value is truthy, in insertion
    order; anything else contributes nothing. *)
Fixpoint toVal (mix : value) : string :=
  match mix with
  | VStr s => s
  | VNum n => pretty n
  | VArr l =>
      fold_left
        (fun str item =>
           if truthy item then
             let y := toVal item in
             if String.eqb y "" then str
             else add_class str y
           else str)
        l ""
  | VObj o =>
      fold_left
        (fun str y =>
           if truthy (prop o y)
           then add_class str y
           else str)
        (obj_keys o) ""
  | VNull | VUndefined | VBool _ | VFun _ => ""
  end.

(** Modelled from the spec: [clsx(...inputs)] skips falsy arguments and
    arguments that contribute nothing, and joins the rest with single
    spaces; it does not remove duplicates. *)
Definition clsx (inputs : list value) : value :=
  VStr
    (fold_left
       (fun str tmp =>
          if truthy tmp then
            let x := toVal tmp in
            if String.eqb x "" then str
            else add_class str x
          else str)
       inputs "").

(** ** Callback log

    A render calls back into user code. The writer monad [M] records every
    such call, in order, next to the computed result. *)

Inductive event : Type :=
| CallAttrs (props : obj)               (* attrs(p) *)
| CallShouldForwardProp (name : string) (* shouldForwardProp(prop) *)
| CallClassFn (props : obj)             (* stringsOrFn(p) *)
| CallCompose (args : list value)       (* compose(a, b) *)
| CallChildrenRenderer (children : value).

Definition M (A : Type) : Type := A * list event.

Definition ret {A : Type} (a : A) : M A := (a, []).

Definition bind {A B : Type} (m : M A) (k : A -> M B) : M B :=
  let (b, l) := k (fst m) in (b, snd m ++ l).

(** [invoke e r]: the callback call [e] happened and returned [r]. *)
Definition invoke {A : Type} (e : event) (r : A) : M A := (r, [e]).

Notation "'let*' x ':=' m 'in' k" := (bind m (fun x => k))
  (at level 10, x name, m at level 100, k at level 200).

Definition result {A : Type} (m : M A) : A := fst m.
Definition calls {A : Type} (m : M A) : list event := snd m.

(** ** Helpers of [src/index.tsx] *)

(** [filterProps]: a fresh object holding the properties of [props], in
    order, whose name [shouldForwardProp] accepts. The assignment
    [filteredProps[prop] = props[prop]] adds a property, as it does for
    every name but [__proto__]. *)
Definition filterProps (props : obj) (shouldForwardProp : string -> bool) : M obj :=
  fold_left
    (fun (acc : M obj) (prop_name : string) =>
       let* filteredProps := acc in
       let* forward := invoke (CallShouldForwardProp prop_name) (shouldForwardProp prop_name) in
       ret (if forward : bool
            then obj_set prop_name (prop props prop_name) filteredProps
            else filteredProps))
    (obj_keys props) (ret []).

(** [flattenStyle]: nothing for a missing style, the left-to-right merge of
    the flattened layers for a stack, the style itself otherwise. *)
Fixpoint flattenStyle (style : value) : value :=
  match style with
  | VUndefined | VNull => VObj []
  | VArr l =>
      VObj (fold_left (fun acc s => spread2 (VObj acc) (flattenStyle s)) l [])
  | _ => style
  end.

(** [mergeStyles]. *)
Definition mergeStyles (baseStyle overrideStyle : value) : value :=
  if is_nullish baseStyle then overrideStyle
  else if is_nullish overrideStyle then baseStyle
  else VObj (spread2 (flattenStyle baseStyle) (flattenStyle overrideStyle)).

(** [mergePropsWithAttrs]. *)
Definition mergePropsWithAttrs (attrs props : obj) : obj :=
  let merged := spread2 (VObj attrs) (VObj props) in
  if negb (is_nullish (prop attrs "style")) && negb (is_nullish (prop props "style"))
  then obj_set "style" (mergeStyles (prop attrs "style") (prop props "style")) merged
  else merged.

(** ** The factory: [createTwc] *)

(** [Config]: both fields are optional. *)
Record Config : Type := {
  compose : option (list value -> value);
  shouldForwardProp : option (string -> bool)
}.

(** The base component being wrapped, as far as the factory looks at it. *)
Record Component : Type := {
  displayName : option string;
  name : string
}.

(** [Attributes]: a mapping, or a function of the render-time props. *)
Inductive Attributes : Type :=
| AttrsObject (attrs : obj)
| AttrsFunction (attrs : obj -> obj).

(** A class-name function: its source text and its behaviour. *)
Record ClassFn : Type := {
  cf_source : string;
  cf_apply : obj -> value
}.

(** The two shapes of a template invocation: a tagged template literal
    (fragments and interpolated values) or a class-name function. *)
Inductive TemplateInput : Type :=
| Strings (strings : list string) (values : list value)
| ClassFunction (fn : ClassFn).

(** The argument of [transientProps]. *)
Inductive TransientProps : Type :=
| TransientNames (names : list string)
| TransientFn (fn : string -> bool).

(** A property handed to the base component: a value, or the closure the
    render builds for a deferred class name. *)
Inductive jsx_value : Type :=
| Plain (v : value)
| Deferred (f : value -> value).

(** The element a render returns: [<Comp ref={ref} {...props} />]. *)
Record element : Type := {
  el_type : Component;
  el_ref : value;
  el_props : list (string * jsx_value)
}.

(** The three parts a render resolves before it emits the element. *)
Record resolved : Type := {
  finalProps : obj;
  finalClassName : jsx_value;
  finalChildren : value
}.

(** What a [ForwardedComponent] closes over. *)
Record ForwardedComponent : Type := {
  fc_Component : Component;
  fc_compose : list value -> value;
  fc_attrs : option Attributes;
  fc_shouldForwardProp : string -> bool;
  fc_childrenRenderer : option (value -> value);
  fc_stringsOrFn : TemplateInput;
  fc_tplClassName : value;
  fc_displayName : string
}.

(** A template binder (the closure [template] of [createTemplate]) with
    its own [componentCache], from cache key to component reference. *)
Record Template : Type := {
  t_Component : Component;
  t_compose : list value -> value;
  t_attrs : option Attributes;
  t_shouldForwardProp : string -> bool;
  t_childrenRenderer : option (value -> value);
  componentCache : gmap string nat
}.

(** The heap of wrapped components; a reference is an index into it. *)
Abbreviation heap := (list ForwardedComponent).

(** [prop => prop[0] !== '$']. *)
Definition defaultForward (prop_name : string) : bool :=
  match prop_name with
  | String c _ => negb (Ascii.eqb c "$"%char)
  | EmptyString => true
  end.

(** [Component.displayName || Component.name || 'Component']. *)
Definition component_label (C : Component) : string :=
  match displayName C with
  | Some d => if String.eqb d "" then
                if String.eqb (name C) "" then "Component" else name C
              else d
  | None => if String.eqb (name C) "" then "Component" else name C
  end.

Section Factory.
Variable funs : nat -> jsfun.

(** Calling a function value. *)
Definition call (f arg : value) : value :=
  match f with
  | VFun id => fn_call (funs id) arg
  | _ => VUndefined
  end.

(** The cache key of a template invocation. *)
Definition cacheKey (stringsOrFn : TemplateInput) : string :=
  match stringsOrFn with
  | ClassFunction fn => cf_source fn
  | Strings strings values => string_raw funs strings values
  end.

(** The attrs branch of a render: the props to forward. *)
Definition resolveProps (attrs : option Attributes) (forward : string -> bool)
    (p rest : obj) : M obj :=
  match attrs with
  | None => filterProps rest forward
  | Some (AttrsFunction f) =>
      let* resolvedAttrs := invoke (CallAttrs p) (f p) in
      filterProps (mergePropsWithAttrs resolvedAttrs rest) forward
  | Some (AttrsObject staticAttrs) =>
      filterProps (mergePropsWithAttrs staticAttrs rest) forward
  end.

(** [finalClassName]. *)
Definition resolveClassName (compose : list value -> value)
    (baseClassName classNameProp : value) : M jsx_value :=
  if is_function baseClassName then
    ret (Deferred (fun renderProps =>
           compose [call baseClassName renderProps;
                    if is_function classNameProp
                    then call classNameProp renderProps
                    else classNameProp]))
  else
    let* c := invoke (CallCompose [baseClassName; classNameProp])
                     (compose [baseClassName; classNameProp]) in
    ret (Plain c).

(** [finalChildren]. *)
Definition resolveChildren (childrenRenderer : option (value -> value))
    (children : value) : M value :=
  match childrenRenderer with
  | Some renderer => invoke (CallChildrenRenderer children) (renderer children)
  | None => ret children
  end.

(** [<Comp ref={ref} className={finalClassName} {...finalProps}>
     {finalChildren}</Comp>]: the class name first, the forwarded props
    spread over it, the children last. [el_props] holds the attributes
    as written; React itself then takes entries named [ref] and [key] out
    of them (a forwarded prop named [ref] replaces the ref). *)
Definition emit (C : Component) (ref : value) (finalClassName : jsx_value)
    (finalProps : obj) (finalChildren : value) : element :=
  {| el_type := C;
     el_ref := ref;
     el_props :=
       obj_set "children" (Plain finalChildren)
         (copy_props [("className", finalClassName)]
            (List.map (fun kv => (fst kv, Plain (snd kv))) finalProps)) |}.

(** The body of the render function handed to [React.forwardRef], up to
    its [return]: the three resolved parts. *)
Definition resolve (c : ForwardedComponent) (p : obj) : M resolved :=
  let classNameProp := prop p "className" in
  let children := prop p "children" in
  let rest := obj_del "children" (obj_del "className" p) in
  let* finalProps := resolveProps (fc_attrs c) (fc_shouldForwardProp c) p rest in
  let* baseClassName :=
    match fc_stringsOrFn c with
    | ClassFunction fn => invoke (CallClassFn p) (cf_apply fn p)
    | Strings _ _ => ret (fc_tplClassName c)
    end in
  let* finalClassName := resolveClassName (fc_compose c) baseClassName classNameProp in
  let* finalChildren := resolveChildren (fc_childrenRenderer c) children in
  ret {| finalProps := finalProps;
         finalClassName := finalClassName;
         finalChildren := finalChildren |}.

(** The render function: the element it returns. *)
Definition render (c : ForwardedComponent) (p : obj) (ref : value) : M element :=
  let* r := resolve c p in
  ret (emit (fc_Component c) ref (finalClassName r) (finalProps r) (finalChildren r)).

(** [createTemplate(attrs, shouldForwardProp, childrenRenderer)] inside
    [wrap(Component)]: a binder with an empty cache. *)
Definition createTemplate (compose : list value -> value) (C : Component)
    (attrs : option Attributes) (forward : string -> bool)
    (childrenRenderer : option (value -> value)) : Template :=
  {| t_Component := C;
     t_compose := compose;
     t_attrs := attrs;
     t_shouldForwardProp := forward;
     t_childrenRenderer := childrenRenderer;
     componentCache := ∅ |}.

(** The component a cache miss constructs. *)
Definition newComponent (t : Template) (stringsOrFn : TemplateInput) : ForwardedComponent :=
  {| fc_Component := t_Component t;
     fc_compose := t_compose t;
     fc_attrs := t_attrs t;
     fc_shouldForwardProp := t_shouldForwardProp t;
     fc_childrenRenderer := t_childrenRenderer t;
     fc_stringsOrFn := stringsOrFn;
     fc_tplClassName :=
       match stringsOrFn with
       | ClassFunction _ => VUndefined
       | Strings _ _ => VStr (cacheKey stringsOrFn)
       end;
     fc_displayName := "twc(" ++ component_label (t_Component t) ++ ")" |}.

(** [template(stringsOrFn, ...values)]: the cached component when the
    key is known, otherwise a new heap object that is cached. Returns
    the component reference, the binder and the heap afterwards. *)
Definition template (t : Template) (stringsOrFn : TemplateInput) (h : heap)
    : nat * Template * heap :=
  let key := cacheKey stringsOrFn in
  match componentCache t !! key with
  | Some c => (c, t, h)
  | None =>
      let c := length h in
      (c,
       {| t_Component := t_Component t;
          t_compose := t_compose t;
          t_attrs := t_attrs t;
          t_shouldForwardProp := t_shouldForwardProp t;
          t_childrenRenderer := t_childrenRenderer t;
          componentCache := <[key := c]> (componentCache t) |},
       h ++ [newComponent t stringsOrFn])
  end.

(** [template.transientProps(fnOrArray)]. *)
Definition transientProps (t : Template) (fnOrArray : TransientProps) : Template :=
  let newShouldForwardProp :=
    match fnOrArray with
    | TransientFn fn => fun prop_name => negb (fn prop_name)
    | TransientNames names =>
        fun prop_name => negb (existsb (String.eqb prop_name) names)
    end in
  createTemplate (t_compose t) (t_Component t) (t_attrs t)
    newShouldForwardProp (t_childrenRenderer t).

(** [template.withChildren(renderer)]. *)
Definition withChildren (t : Template) (renderer : value -> value) : Template :=
  createTemplate (t_compose t) (t_Component t) (t_attrs t)
    (t_shouldForwardProp t) (Some renderer).

(** [template.attrs(newAttrs)]: the method exists only while no attrs
    are bound. *)
Definition attrs (t : Template) (newAttrs : Attributes) : option Template :=
  match t_attrs t with
  | None =>
      Some (createTemplate (t_compose t) (t_Component t) (Some newAttrs)
              (t_shouldForwardProp t) (t_childrenRenderer t))
  | Some _ => None
  end.

(** [createTwc(config)(Component)]: the first-level binder. *)
Definition createTwc (config : Config) (C : Component) : Template :=
  createTemplate
    (match compose config with Some f => f | None => clsx end)
    C None
    (match shouldForwardProp config with Some f => f | None => defaultForward end)
    None.

(** [twc]: the default instance. *)
Definition twc : Component -> Template :=
  createTwc {| compose := None; shouldForwardProp := None |}.
End Factory.

(** ** Reading a style *)

(** The value a style gives to key [k]: the property [k] of the style once
    its layers are flattened. *)
Definition style_get (style : value) (k : string) : option value :=
  obj_get (own_props (flattenStyle style)) k.

(** ** Reading the callback log *)



(** The property names the forwarding predicate was consulted for. *)
Definition forward_args (l : list event) : list string :=
  flat_map (fun e => match e with CallShouldForwardProp n => [n] | _ => [] end) l.

(** The values the children renderer was called with. *)
Definition children_args (l : list event) : list value :=
  flat_map (fun e => match e with CallChildrenRenderer v => [v] | _ => [] end) l.

(** The attrs a render merges under the incoming props [p]: none, the
    static mapping, or the mapping the attrs function returns for [p]. *)
Definition resolvedAttrs (attrs : option Attributes) (p : obj) : obj :=
  match attrs with
  | None => []
  | Some (AttrsObject staticAttrs) => staticAttrs
  | Some (AttrsFunction f) => f p
  end.

(** The class name a render starts from. *)
Definition baseClassName (c : ForwardedComponent) (p : obj) : value :=
  match fc_stringsOrFn c with
  | ClassFunction fn => cf_apply fn p
  | Strings _ _ => fc_tplClassName c
  end.

(** The non-empty parts joined by single spaces. *)
Definition space_join (parts : list string) : string :=
  join " " (List.filter (fun s => negb (String.eqb s "")) parts).

(** ** Sample data *)

(** A function table for renders whose props hold no function. *)
Definition no_functions : nat -> jsfun :=
  fun _ => {| fn_source := "function () { }"; fn_call := fun _ => VUndefined |}.

(** The [View] of the test-suite. *)
Definition View : Component := {| displayName := Some "View"; name := "View" |}.

(** The first and the second component of two template invocations in a
    row on the same binder, starting from an empty heap. *)
Definition twice (funs : nat -> jsfun) (t : Template) (i1 i2 : TemplateInput)
    : nat * nat * heap :=
  let '(c1, t1, h1) := template funs t i1 [] in
  let '(c2, _, h2) := template funs t1 i2 h1 in
  (c1, c2, h2).

(** A [Button] in the default configuration whose attrs and class name
    are computed from the transient prop [$variant]. *)
Definition Button : ForwardedComponent :=
  newComponent no_functions
    (createTemplate clsx View
       (Some (AttrsFunction (fun q => [("accessibilityLabel", prop q "$variant")])))
       defaultForward None)
    (ClassFunction
       {| cf_source := "(props) => props.$variant";
          cf_apply := fun q => prop q "$variant" |}).

(** A [Badge] with a children renderer that falls back to a default text. *)
Definition Badge : ForwardedComponent :=
  newComponent no_functions
    (withChildren (twc View)
       (fun children => if is_nullish children then VStr "Fallback" else children))
    (Strings ["bg-blue-500"] []).

(** A table with one function object, a class name that depends on the
    interaction state [pressed]. *)
Definition pressable_functions : nat -> jsfun :=
  fun _ =>
    {| fn_source := "(state) => state.pressed ? 'scale-95' : ''";
       fn_call := fun state =>
         if truthy (match state with
                    | VObj o => prop o "pressed"
                    | _ => VUndefined
                    end)
         then VStr "scale-95" else VStr "" |}.

(** A pressable whose class-name function defers to the interaction
    state. *)
Definition Pressable : ForwardedComponent :=
  newComponent pressable_functions (twc View)
    (ClassFunction {| cf_source := "() => (state) => state.pressed ? 'scale-95' : ''";
                      cf_apply := fun _ => VFun 0 |}).

(** Components whose static attrs define [className], or [children]. *)
Definition WithClassNameAttr : ForwardedComponent :=
  newComponent no_functions
    (createTemplate clsx View (Some (AttrsObject [("className", VStr "x")]))
       defaultForward None)
    (Strings ["bg-white"] []).

Definition WithChildrenAttr : ForwardedComponent :=
  newComponent no_functions
    (createTemplate clsx View (Some (AttrsObject [("children", VStr "x")]))
       defaultForward None)
    (Strings ["bg-white"] []).

(** ** Well-formed objects *)

(** A JavaScript object has each key once. *)
Definition wf_obj {A : Type} (o : list (string * A)) : Prop :=
  List.NoDup (obj_keys o).

(** A name that starts with a decimal digit; every integer-like property
    name (["0"], ["12"], ...) is one. *)
Definition starts_with_digit (k : string) : bool :=
  match k with
  | String ch _ =>
      (Nat.leb (nat_of_ascii "0"%char) (nat_of_ascii ch)
       && Nat.leb (nat_of_ascii ch) (nat_of_ascii "9"%char))%bool
  | EmptyString => false
  end.

(** The property names on which property lists behave as JavaScript
    objects do in every respect. An integer-like name is enumerated before
    the other names whatever the insertion order, and assigning to the
    name [__proto__] sets the prototype instead of adding a property;
    both are left out. *)
Definition ordinary_key (k : string) : bool :=
  negb (String.eqb k "__proto__") && negb (starts_with_digit k).

(** An object all of whose keys are ordinary: its key order is its
    insertion order, and assignments to its keys add properties. *)
Definition ordinary_obj {A : Type} (o : list (string * A)) : Prop :=
  wf_obj o /\ forallb ordinary_key (obj_keys o) = true.

(** A [Card] whose static attrs carry a style. *)
Definition Card : ForwardedComponent :=
  newComponent no_functions
    (createTemplate clsx View
       (Some (AttrsObject
                [("style", VObj [("backgroundColor", VStr "white"); ("padding", VNum 10)])]))
       defaultForward None)
    (Strings ["rounded"] []).

(** ** The instance cache over time *)

(** A binder's cache is coherent with a heap when every cached reference
    points at a component this binder built for an input with that key. *)
Definition cache_ok (funs : nat -> jsfun) (t : Template) (h : heap) : Prop :=
  forall key c,
    componentCache t !! key = Some c ->
    exists stringsOrFn,
      h !! c = Some (newComponent funs t stringsOrFn)
      /\ cacheKey funs stringsOrFn = key.

(** Invoking a binder on a list of inputs, one after the other. *)
Fixpoint template_all (funs : nat -> jsfun) (t : Template)
    (inputs : list TemplateInput) (h : heap) : Template * heap :=
  match inputs with
  | [] => (t, h)
  | stringsOrFn :: rest =>
      let '(_, t1, h1) := template funs t stringsOrFn h in
      template_all funs t1 rest h1
  end.

(** Two class-name functions with the same source text and different
    behaviour, as closures over different variables are. *)
Definition classFn_blue : ClassFn :=
  {| cf_source := "() => color"; cf_apply := fun _ => VStr "bg-blue-500" |}.

Definition classFn_red : ClassFn :=
  {| cf_source := "() => color"; cf_apply := fun _ => VStr "bg-red-500" |}.

(** * Properties *)

(** ** Property lists *)

Section PropertyFacts.
Context {A : Type}.
Implicit Types (o : list (string * A)) (k : string).

Lemma obj_get_set o k k' (v : A) :
  obj_get (obj_set k v o) k' = if String.eqb k k' then Some v else obj_get o k'.
Proof.
  induction o as [|[k0 v0] o IH]; simpl.
  - reflexivity.
  - destruct (String.eqb_spec k0 k) as [->|Hne]; simpl.
    + destruct (String.eqb k k'); reflexivity.
    + rewrite IH. destruct (String.eqb_spec k0 k') as [->|Hne'].
      * apply String.eqb_neq in Hne. rewrite String.eqb_sym in Hne.
        rewrite Hne. reflexivity.
      * reflexivity.
Qed.

Lemma obj_get_del o k k' :
  obj_get (obj_del k o) k' = if String.eqb k k' then None else obj_get o k'.
Proof.
  unfold obj_del. induction o as [|[k0 v0] o IH]; simpl.
  - destruct (String.eqb k k'); reflexivity.
  - destruct (String.eqb_spec k0 k) as [->|Hne]; simpl.
    + rewrite IH. destruct (String.eqb k k'); reflexivity.
    + rewrite IH. destruct (String.eqb_spec k0 k') as [->|Hne'].
      * apply String.eqb_neq in Hne. rewrite String.eqb_sym in Hne.
        rewrite Hne. reflexivity.
      * reflexivity.
Qed.

Lemma obj_get_keys o k :
  existsb (String.eqb k) (obj_keys o) = obj_has o k.
Proof.
  unfold obj_has. induction o as [|[k0 v0] o IH]; simpl; [reflexivity|].
  rewrite (String.eqb_sym k k0). destruct (String.eqb k0 k); simpl; auto.
Qed.

Lemma copy_props_fold (src : list (string * A)) ks o k :
  obj_get
    (fold_left
       (fun acc k0 => match obj_get src k0 with
                      | Some v => obj_set k0 v acc
                      | None => acc
                      end) ks o) k
  = if existsb (String.eqb k) ks
    then match obj_get src k with Some v => Some v | None => obj_get o k end
    else obj_get o k.
Proof.
  revert o. induction ks as [|k0 ks IH]; intros o; simpl; [reflexivity|].
  rewrite IH. destruct (String.eqb_spec k k0) as [->|Hne]; simpl.
  - destruct (obj_get src k0) as [v|] eqn:E.
    + destruct (existsb _ ks); [reflexivity|].
      rewrite obj_get_set, String.eqb_refl. reflexivity.
    + destruct (existsb _ ks); reflexivity.
  - assert (Hk : obj_get (match obj_get src k0 with
                          | Some v => obj_set k0 v o
                          | None => o
                          end) k = obj_get o k).
    { destruct (obj_get src k0); [|reflexivity].
      rewrite obj_get_set. apply String.eqb_neq in Hne.
      rewrite String.eqb_sym in Hne. rewrite Hne. reflexivity. }
    rewrite Hk. reflexivity.
Qed.

(** A spread copy gives every key of the source the source's value and
    leaves the other keys of the target alone. *)
Lemma obj_get_copy_props (target src : list (string * A)) k :
  obj_get (copy_props target src) k
  = match obj_get src k with Some v => Some v | None => obj_get target k end.
Proof.
  unfold copy_props. rewrite copy_props_fold, obj_get_keys. unfold obj_has.
  destruct (obj_get src k); reflexivity.
Qed.
End PropertyFacts.

Lemma obj_get_spread2 (a b : value) k :
  obj_get (spread2 a b) k
  = match obj_get (own_props b) k with
    | Some v => Some v
    | None => obj_get (own_props a) k
    end.
Proof.
  unfold spread2. rewrite !obj_get_copy_props. simpl.
  destruct (obj_get (own_props b) k); [reflexivity|].
  destruct (obj_get (own_props a) k); reflexivity.
Qed.

Lemma obj_get_map_Plain (o : obj) k :
  obj_get (List.map (fun kv => (fst kv, Plain (snd kv))) o) k
  = option_map Plain (obj_get o k).
Proof.
  induction o as [|[k0 v0] o IH]; simpl; [reflexivity|].
  destruct (String.eqb k0 k); [reflexivity|apply IH].
Qed.

(** ** [filterProps] *)

Lemma filterProps_fold (props : obj) (forward : string -> bool) ks (acc : M obj) :
  let step := fun (acc : M obj) (prop_name : string) =>
       let* filteredProps := acc in
       let* fwd := invoke (CallShouldForwardProp prop_name) (forward prop_name) in
       ret (if fwd : bool
            then obj_set prop_name (prop props prop_name) filteredProps
            else filteredProps) in
  calls (fold_left step ks acc) = calls acc ++ List.map CallShouldForwardProp ks
  /\ forall k,
       obj_get (result (fold_left step ks acc)) k
       = if existsb (String.eqb k) ks && forward k
         then Some (prop props k)
         else obj_get (result acc) k.
Proof.
  intros step. revert acc.
  induction ks as [|k0 ks IH]; intros acc; simpl.
  - split; [symmetry; apply app_nil_r|reflexivity].
  - destruct (IH (step acc k0)) as [IHc IHr]. split.
    + rewrite IHc. unfold step, calls, bind, invoke, ret; simpl.
      rewrite <- app_assoc. reflexivity.
    + intros k. rewrite IHr.
      unfold step, result, bind, invoke, ret; simpl.
      destruct (String.eqb_spec k k0) as [->|Hne]; simpl.
      * destruct (forward k0) eqn:F.
        -- rewrite andb_true_r.
           destruct (existsb _ ks); [reflexivity|].
           rewrite obj_get_set, String.eqb_refl. reflexivity.
        -- rewrite andb_false_r. reflexivity.
      * destruct (existsb (String.eqb k) ks && forward k); [reflexivity|].
        destruct (forward k0); [|reflexivity].
        rewrite obj_get_set. apply String.eqb_neq in Hne.
        rewrite String.eqb_sym in Hne. rewrite Hne. reflexivity.
Qed.

(** The predicate is consulted once per key, in key order. *)
Lemma filterProps_calls (props : obj) forward :
  calls (filterProps props forward) = List.map CallShouldForwardProp (obj_keys props).
Proof.
  unfold filterProps.
  destruct (filterProps_fold props forward (obj_keys props) (ret [])) as [H _].
  exact H.
Qed.

(** A key survives the filter exactly when the predicate accepts it. *)
Lemma filterProps_get (props : obj) forward k :
  obj_get (result (filterProps props forward)) k
  = if forward k then obj_get props k else None.
Proof.
  unfold filterProps.
  destruct (filterProps_fold props forward (obj_keys props) (ret [])) as [_ H].
  rewrite H, obj_get_keys. unfold obj_has, prop. simpl.
  destruct (obj_get props k), (forward k); reflexivity.
Qed.

(** ** Styles and the attrs / props merge *)

Lemma flattenStyle_snoc (layers : list value) (layer : value) :
  flattenStyle (VArr (layers ++ [layer]))
  = VObj (spread2 (flattenStyle (VArr layers)) (flattenStyle layer)).
Proof.
  simpl. rewrite fold_left_app. reflexivity.
Qed.

(** In a style stack a later layer overrides the earlier ones. *)
Lemma style_get_snoc (layers : list value) (layer : value) k :
  style_get (VArr (layers ++ [layer])) k
  = match style_get layer k with
    | Some v => Some v
    | None => style_get (VArr layers) k
    end.
Proof.
  unfold style_get. rewrite flattenStyle_snoc. simpl own_props at 1.
  apply obj_get_spread2.
Qed.

Lemma mergePropsWithAttrs_other (attrs props : obj) k :
  k <> "style" ->
  obj_get (mergePropsWithAttrs attrs props) k
  = match obj_get props k with Some v => Some v | None => obj_get attrs k end.
Proof.
  intros Hk. unfold mergePropsWithAttrs.
  destruct (negb _ && negb _).
  - rewrite obj_get_set. destruct (String.eqb_spec "style" k) as [E|_].
    + congruence.
    + apply obj_get_spread2.
  - apply obj_get_spread2.
Qed.

(** C3. Merging attrs with the incoming props: on every key other than
    [style] the props win over the attrs; when both sides carry a style
    (neither is null or undefined) the merged style is a fresh object that
    gives each key the props-side value when the props' style has it and
    the attrs-side value otherwise, both styles being read flattened; and
    flattening a style stack goes left to right, a later layer overriding
    the earlier ones on the same key. *)
Theorem mergePropsWithAttrs_props_win_style_merged (attrs props : obj) :
  (forall k, k <> "style" ->
     obj_get (mergePropsWithAttrs attrs props) k
     = match obj_get props k with Some v => Some v | None => obj_get attrs k end)
  /\ (is_nullish (prop attrs "style") = false ->
      is_nullish (prop props "style") = false ->
      exists merged_style,
        obj_get (mergePropsWithAttrs attrs props) "style" = Some (VObj merged_style)
        /\ forall k,
             obj_get merged_style k
             = match style_get (prop props "style") k with
               | Some v => Some v
               | None => style_get (prop attrs "style") k
               end)
  /\ (forall layers layer k,
        style_get (VArr (layers ++ [layer])) k
        = match style_get layer k with
          | Some v => Some v
          | None => style_get (VArr layers) k
          end)
  /\ (forall k, style_get (VArr []) k = None)
  /\ (forall o k, style_get (VObj o) k = obj_get o k).
Proof.
  split; [|split; [|split; [|split]]].
  - intros k Hk. apply mergePropsWithAttrs_other, Hk.
  - intros Ha Hp. unfold mergePropsWithAttrs. rewrite Ha, Hp. simpl.
    eexists. split.
    + rewrite obj_get_set, String.eqb_refl. unfold mergeStyles.
      rewrite Ha, Hp. reflexivity.
    + intros k. apply obj_get_spread2.
  - intros layers layer k. apply style_get_snoc.
  - reflexivity.
  - reflexivity.
Qed.

(** The merge on the test-suite example: [backgroundColor] is overridden,
    [padding] is kept, [margin] is added. *)
Lemma mergePropsWithAttrs_props_win_style_merged_witness :
  exists merged_style,
    obj_get (mergePropsWithAttrs
               [("style", VObj [("backgroundColor", VStr "white"); ("padding", VNum 10)])]
               [("testID", VStr "card");
                ("style", VObj [("margin", VNum 20); ("backgroundColor", VStr "blue")])])
            "style" = Some (VObj merged_style)
    /\ forall k,
         obj_get merged_style k
         = match style_get (VObj [("margin", VNum 20); ("backgroundColor", VStr "blue")]) k with
           | Some v => Some v
           | None => style_get (VObj [("backgroundColor", VStr "white"); ("padding", VNum 10)]) k
           end.
Proof.
  apply (mergePropsWithAttrs_props_win_style_merged
           [("style", VObj [("backgroundColor", VStr "white"); ("padding", VNum 10)])]
           [("testID", VStr "card");
            ("style", VObj [("margin", VNum 20); ("backgroundColor", VStr "blue")])]);
    reflexivity.
Defined.

(** [mergeStyles] on its own: a missing side gives back the other side
    untouched. *)
Lemma mergeStyles_missing_side (baseStyle overrideStyle : value) :
  (is_nullish baseStyle = true -> mergeStyles baseStyle overrideStyle = overrideStyle)
  /\ (is_nullish baseStyle = false -> is_nullish overrideStyle = true ->
      mergeStyles baseStyle overrideStyle = baseStyle).
Proof.
  unfold mergeStyles. split.
  - intros ->. reflexivity.
  - intros -> ->. reflexivity.
Qed.

(** When the props carry no [style] key at all, or when the attrs' style
    is missing, the merged style is the other side's value as it is. *)
Lemma mergePropsWithAttrs_style_one_side (attrs props : obj) :
  (obj_get props "style" = None ->
   obj_get (mergePropsWithAttrs attrs props) "style" = obj_get attrs "style")
  /\ (forall s, obj_get props "style" = Some s ->
        is_nullish (prop attrs "style") = true ->
        obj_get (mergePropsWithAttrs attrs props) "style" = Some s).
Proof.
  unfold mergePropsWithAttrs, prop. split.
  - intros Hp. rewrite Hp. simpl. rewrite andb_false_r.
    rewrite obj_get_spread2. simpl. rewrite Hp. reflexivity.
  - intros s Hp Ha. rewrite Ha. simpl.
    rewrite obj_get_spread2. simpl. rewrite Hp. reflexivity.
Qed.

(** C4. The props of [<Card style={undefined} />] carry a [style] key
    whose value is undefined. Merged with attrs that define a style, the
    result's style is that undefined, not the attrs' style, although
    [mergeStyles] applied to the same two styles returns the attrs' style. *)
Theorem mergePropsWithAttrs_explicit_undefined_style :
  obj_get (mergePropsWithAttrs [("style", VObj [("padding", VNum 10)])]
                               [("style", VUndefined)]) "style"
  = Some VUndefined
  /\ mergeStyles (VObj [("padding", VNum 10)]) VUndefined
     = VObj [("padding", VNum 10)]
  /\ obj_get (mergePropsWithAttrs [("style", VObj [("padding", VNum 10)])]
                                  [("style", VNull)]) "style"
     = Some VNull.
Proof.
  repeat split; reflexivity.
Qed.

(** ** The instance cache *)

Lemma string_raw_to_string funs (strings : list string) :
  forall values values',
    List.map (to_string funs) values = List.map (to_string funs) values' ->
    string_raw funs strings values = string_raw funs strings values'.
Proof.
  induction strings as [|s rest IH]; intros values values' H; [reflexivity|].
  destruct rest as [|s' rest]; [reflexivity|].
  destruct values as [|v vs], values' as [|v' vs']; try discriminate.
  - reflexivity.
  - injection H as Hv Hvs.
    change (s ++ to_string funs v ++ string_raw funs (s' :: rest) vs
            = s ++ to_string funs v' ++ string_raw funs (s' :: rest) vs')%string.
    rewrite Hv, (IH vs vs' Hvs). reflexivity.
Qed.

(** A second invocation whose key equals the first one's is a cache hit. *)
Lemma template_same_key funs (t : Template) (i1 i2 : TemplateInput) (h : heap) :
  cacheKey funs i1 = cacheKey funs i2 ->
  forall c1 t1 h1, template funs t i1 h = (c1, t1, h1) ->
  template funs t1 i2 h1 = (c1, t1, h1).
Proof.
  intros Hk c1 t1 h1. unfold template. rewrite <- Hk.
  destruct (componentCache t !! cacheKey funs i1) as [c|] eqn:E.
  - intros [= <- <- <-]. rewrite E. reflexivity.
  - intros [= <- <- <-]. simpl. rewrite lookup_insert_eq. reflexivity.
Qed.

(** A miss allocates the next heap cell and caches its reference. *)
Lemma template_miss funs (t : Template) (i : TemplateInput) (h : heap) :
  componentCache t !! cacheKey funs i = None ->
  exists t',
    template funs t i h = (length h, t', h ++ [newComponent funs t i])
    /\ componentCache t' !! cacheKey funs i = Some (length h).
Proof.
  intros E. unfold template. rewrite E. eexists. split; [reflexivity|].
  simpl. apply lookup_insert_eq.
Qed.

(** C1, as the code has it. The cache key of a literal template is its
    fragments with the string conversions of the interpolated values
    spliced between them: invocations with the same fragments and values
    of the same string conversions have the same key, and the second one
    returns the component the first one cached; a class-name function is
    keyed by its source text. *)
Theorem cacheKey_spliced_template_text funs (strings : list string)
    (values values' : list value) :
  List.map (to_string funs) values = List.map (to_string funs) values' ->
  cacheKey funs (Strings strings values) = cacheKey funs (Strings strings values')
  /\ (forall t h c1 t1 h1,
        template funs t (Strings strings values) h = (c1, t1, h1) ->
        template funs t1 (Strings strings values') h1 = (c1, t1, h1))
  /\ (forall s vs, cacheKey funs (Strings [s] vs) = s)
  /\ (forall s s' rest v vs,
        cacheKey funs (Strings (s :: s' :: rest) (v :: vs))
        = (s ++ to_string funs v ++ cacheKey funs (Strings (s' :: rest) vs))%string)
  /\ (forall fn, cacheKey funs (ClassFunction fn) = cf_source fn).
Proof.
  intros H.
  assert (Hk : cacheKey funs (Strings strings values)
               = cacheKey funs (Strings strings values')).
  { simpl. apply string_raw_to_string, H. }
  split; [exact Hk|]. split.
  - intros t h c1 t1 h1. apply template_same_key, Hk.
  - repeat split; reflexivity.
Qed.

(** The number 4 and the string ["4"] are spliced as the same text. *)
Lemma cacheKey_spliced_template_text_witness :
  cacheKey no_functions (Strings ["p-"; " m-2"] [VNum 4])
  = cacheKey no_functions (Strings ["p-"; " m-2"] [VStr "4"]).
Proof.
  apply (cacheKey_spliced_template_text no_functions ["p-"; " m-2"] [VNum 4] [VStr "4"]).
  reflexivity.
Defined.

(** C1, as stated, fails: the same fragments with another interpolated
    value give another cache key, and the binder builds a second
    component. *)
Lemma cacheKey_ignores_values_counterexample :
  cacheKey no_functions (Strings [""; " bg-white"] [VStr "p-4"])
  <> cacheKey no_functions (Strings [""; " bg-white"] [VStr "p-2"])
  /\ (let '(c1, c2, h) :=
         twice no_functions (twc View)
           (Strings [""; " bg-white"] [VStr "p-4"])
           (Strings [""; " bg-white"] [VStr "p-2"]) in
       c1 <> c2
       /\ List.map fc_tplClassName h = [VStr "p-4 bg-white"; VStr "p-2 bg-white"]).
Proof.
  split.
  - vm_compute. discriminate.
  - vm_compute. split; [discriminate|reflexivity].
Qed.

Lemma template_fields funs (t : Template) (i : TemplateInput) (h : heap) c t' h' :
  template funs t i h = (c, t', h') ->
  forall i', newComponent funs t' i' = newComponent funs t i'.
Proof.
  unfold template. destruct (componentCache t !! cacheKey funs i).
  - intros [= <- <- <-] i'. reflexivity.
  - intros [= <- <- <-] i'. reflexivity.
Qed.

Lemma template_cached funs (t : Template) (i : TemplateInput) (h : heap) c t' h' :
  template funs t i h = (c, t', h') ->
  componentCache t' !! cacheKey funs i = Some c.
Proof.
  unfold template. destruct (componentCache t !! cacheKey funs i) eqn:E.
  - intros [= <- <- <-]. exact E.
  - intros [= <- <- <-]. simpl. apply lookup_insert_eq.
Qed.

Lemma template_hit funs (t : Template) (i : TemplateInput) (h : heap) c :
  componentCache t !! cacheKey funs i = Some c ->
  template funs t i h = (c, t, h).
Proof. intros E. unfold template. rewrite E. reflexivity. Qed.

Lemma template_keeps funs (t : Template) (i : TemplateInput) (h : heap) c' t' h' key c :
  componentCache t !! key = Some c ->
  template funs t i h = (c', t', h') ->
  componentCache t' !! key = Some c.
Proof.
  intros Hk. unfold template.
  destruct (componentCache t !! cacheKey funs i) eqn:E.
  - intros [= <- <- <-]. exact Hk.
  - intros [= <- <- <-]. simpl. rewrite lookup_insert_ne; [exact Hk|].
    intros Heq. rewrite Heq in E. congruence.
Qed.

Lemma cache_ok_template funs (t : Template) (i : TemplateInput) (h : heap) c t' h' :
  cache_ok funs t h ->
  template funs t i h = (c, t', h') ->
  cache_ok funs t' h'
  /\ (exists i', h' !! c = Some (newComponent funs t i')
                 /\ cacheKey funs i' = cacheKey funs i)
  /\ (exists more, h' = h ++ more).
Proof.
  intros Hok. unfold template.
  destruct (componentCache t !! cacheKey funs i) as [c0|] eqn:E.
  - intros [= <- <- <-]. split; [exact Hok|]. split.
    + apply Hok, E.
    + exists []. symmetry. apply List.app_nil_r.
  - intros [= <- <- <-]. split; [|split].
    + intros key c Hc. simpl in Hc.
      destruct (decide (cacheKey funs i = key)) as [<-|Hne].
      * rewrite lookup_insert_eq in Hc. injection Hc as <-.
        exists i. split; [|reflexivity].
        rewrite lookup_app_r by reflexivity. rewrite Nat.sub_diag. reflexivity.
      * rewrite lookup_insert_ne in Hc by exact Hne.
        destruct (Hok key c Hc) as (i0 & Hi0 & Hkey).
        exists i0. split; [|exact Hkey].
        rewrite lookup_app_l by (eapply lookup_lt_Some, Hi0). exact Hi0.
    + exists i. split; [|reflexivity].
      rewrite lookup_app_r by reflexivity. rewrite Nat.sub_diag. reflexivity.
    + eexists. reflexivity.
Qed.

(** C2. Two invocations of one binder with the same template text (the
    same cache key: the same literal text, or a function with the same
    source text) return the same component reference, and the second one
    leaves the cache and the heap as they were: nothing is constructed.
    The reference is that of a wrapped component: when the key was not
    cached the first invocation builds the component for its input in a
    new heap cell and both invocations return that cell; when it was
    cached both return the cached reference, which in a coherent cache
    points at a component this binder built for that key. *)
Theorem template_twice_same_instance funs (t : Template) (i1 i2 : TemplateInput)
    (h : heap) :
  cacheKey funs i1 = cacheKey funs i2 ->
  let '(c1, t1, h1) := template funs t i1 h in
  let '(c2, t2, h2) := template funs t1 i2 h1 in
  (c1 = c2 /\ t2 = t1 /\ h2 = h1)
  /\ (componentCache t !! cacheKey funs i1 = None ->
      c1 = length h
      /\ h1 = h ++ [newComponent funs t i1]
      /\ h2 !! c2 = Some (newComponent funs t i1))
  /\ (forall c, componentCache t !! cacheKey funs i1 = Some c ->
        c2 = c /\ h2 = h)
  /\ (cache_ok funs t h ->
      exists i', h2 !! c2 = Some (newComponent funs t i')
                 /\ cacheKey funs i' = cacheKey funs i1).
Proof.
  intros Hk.
  destruct (template funs t i1 h) as [[c1 t1] h1] eqn:E1.
  rewrite (template_same_key funs t i1 i2 h Hk c1 t1 h1 E1).
  split; [repeat split|]. split; [|split].
  - intros Hmiss.
    destruct (template_miss funs t i1 h Hmiss) as (t' & Ht & _).
    rewrite Ht in E1. injection E1 as <- <- <-.
    split; [reflexivity|]. split; [reflexivity|].
    rewrite lookup_app_r by reflexivity. rewrite Nat.sub_diag. reflexivity.
  - intros c Hhit. rewrite (template_hit funs t i1 h c Hhit) in E1.
    injection E1 as <- <- <-. split; reflexivity.
  - intros Hok.
    destruct (cache_ok_template funs t i1 h c1 t1 h1 Hok E1) as (_ & H & _).
    exact H.
Qed.

(** [twc(View)] invoked twice with the template [bg-white rounded]: both
    invocations return the cell that holds the component for it. *)
Lemma template_twice_same_instance_witness :
  let '(c1, t1, h1) :=
    template no_functions (twc View) (Strings ["bg-white rounded"] []) [] in
  let '(c2, t2, h2) :=
    template no_functions t1 (Strings ["bg-white rounded"] []) h1 in
  (c1 = c2 /\ t2 = t1 /\ h2 = h1)
  /\ h2 !! c2
     = Some (newComponent no_functions (twc View) (Strings ["bg-white rounded"] []))
  /\ fc_tplClassName (newComponent no_functions (twc View)
                        (Strings ["bg-white rounded"] []))
     = VStr "bg-white rounded".
Proof.
  pose proof (template_twice_same_instance no_functions (twc View)
                (Strings ["bg-white rounded"] []) (Strings ["bg-white rounded"] []) []
                eq_refl) as H.
  simpl in H. destruct H as (Hsame & Hmiss & _).
  split; [exact Hsame|]. split; [|reflexivity].
  destruct (Hmiss eq_refl) as (_ & _ & Hcell). exact Hcell.
Defined.

(** ** The render pipeline *)

(** The sample binders are what the modifiers of the default instance
    return: [twc(C).attrs(a)] keeps the default composer and predicate. *)
Lemma attrs_of_twc (C : Component) (a : Attributes) :
  attrs (twc C) a = Some (createTemplate clsx C (Some a) defaultForward None)
  /\ attrs (createTemplate clsx C (Some a) defaultForward None) a = None.
Proof. split; reflexivity. Qed.

Lemma result_bind {A B : Type} (m : M A) (k : A -> M B) :
  result (bind m k) = result (k (result m)).
Proof. unfold result, bind. destruct (k (fst m)). reflexivity. Qed.

Lemma calls_bind {A B : Type} (m : M A) (k : A -> M B) :
  calls (bind m k) = calls m ++ calls (k (result m)).
Proof. unfold calls, result, bind. destruct (k (fst m)). reflexivity. Qed.

(** What the element's props hold: the children last, the forwarded props
    over the class name. *)
Lemma emit_get C ref cn fp ch k :
  obj_get (el_props (emit C ref cn fp ch)) k
  = if String.eqb "children" k then Some (Plain ch)
    else match obj_get fp k with
         | Some v => Some (Plain v)
         | None => if String.eqb "className" k then Some cn else None
         end.
Proof.
  unfold emit. simpl el_props. rewrite obj_get_set.
  destruct (String.eqb "children" k); [reflexivity|].
  rewrite obj_get_copy_props, obj_get_map_Plain.
  destruct (obj_get fp k); reflexivity.
Qed.

(** The forwarded props: the filtered merge of the resolved attrs and the
    rest of the incoming props. *)
Lemma resolveProps_get attrs forward p rest k :
  obj_get (result (resolveProps attrs forward p rest)) k
  = if forward k
    then match attrs with
         | None => obj_get rest k
         | Some _ => obj_get (mergePropsWithAttrs (resolvedAttrs attrs p) rest) k
         end
    else None.
Proof.
  destruct attrs as [[o|f]|]; simpl.
  - apply filterProps_get.
  - rewrite result_bind. apply filterProps_get.
  - apply filterProps_get.
Qed.

Lemma resolveProps_calls attrs forward p rest :
  calls (resolveProps attrs forward p rest)
  = match attrs with
    | None => List.map CallShouldForwardProp (obj_keys rest)
    | Some (AttrsObject o) =>
        List.map CallShouldForwardProp (obj_keys (mergePropsWithAttrs o rest))
    | Some (AttrsFunction f) =>
        CallAttrs p
        :: List.map CallShouldForwardProp (obj_keys (mergePropsWithAttrs (f p) rest))
    end.
Proof.
  destruct attrs as [[o|f]|]; simpl.
  - apply filterProps_calls.
  - rewrite calls_bind, filterProps_calls. reflexivity.
  - apply filterProps_calls.
Qed.

Lemma resolve_finalProps funs c p :
  finalProps (result (resolve funs c p))
  = result (resolveProps (fc_attrs c) (fc_shouldForwardProp c) p
              (obj_del "children" (obj_del "className" p))).
Proof. unfold resolve. rewrite !result_bind. reflexivity. Qed.

Lemma resolve_finalClassName funs c p :
  finalClassName (result (resolve funs c p))
  = result (resolveClassName funs (fc_compose c) (baseClassName c p) (prop p "className")).
Proof.
  unfold resolve, baseClassName. rewrite !result_bind. simpl.
  destruct (fc_stringsOrFn c); reflexivity.
Qed.

Lemma resolve_finalChildren funs c p :
  finalChildren (result (resolve funs c p))
  = result (resolveChildren (fc_childrenRenderer c) (prop p "children")).
Proof. unfold resolve. rewrite !result_bind. reflexivity. Qed.

Lemma resolve_calls funs c p :
  calls (resolve funs c p)
  = calls (resolveProps (fc_attrs c) (fc_shouldForwardProp c) p
             (obj_del "children" (obj_del "className" p)))
    ++ match fc_stringsOrFn c with
       | ClassFunction _ => [CallClassFn p]
       | Strings _ _ => []
       end
    ++ calls (resolveClassName funs (fc_compose c) (baseClassName c p) (prop p "className"))
    ++ calls (resolveChildren (fc_childrenRenderer c) (prop p "children")).
Proof.
  unfold resolve, baseClassName. rewrite !calls_bind, ?result_bind.
  destruct (fc_stringsOrFn c); simpl; rewrite ?app_nil_r; reflexivity.
Qed.

Lemma render_result funs c p ref :
  result (render funs c p ref)
  = let r := result (resolve funs c p) in
    emit (fc_Component c) ref (finalClassName r) (finalProps r) (finalChildren r).
Proof. unfold render. rewrite result_bind. reflexivity. Qed.

Lemma render_calls funs c p ref :
  calls (render funs c p ref) = calls (resolve funs c p).
Proof. unfold render. rewrite calls_bind. apply app_nil_r. Qed.

(** The rest of the props holds neither [className] nor [children]. *)
Lemma rest_get (p : obj) k :
  obj_get (obj_del "children" (obj_del "className" p)) k
  = if String.eqb "children" k || String.eqb "className" k then None
    else obj_get p k.
Proof.
  rewrite !obj_get_del.
  destruct (String.eqb "children" k), (String.eqb "className" k); reflexivity.
Qed.

Lemma render_get funs c p ref k :
  obj_get (el_props (result (render funs c p ref))) k
  = let r := result (resolve funs c p) in
    if String.eqb "children" k then Some (Plain (finalChildren r))
    else match obj_get (finalProps r) k with
         | Some v => Some (Plain v)
         | None => if String.eqb "className" k then Some (finalClassName r) else None
         end.
Proof. rewrite render_result. apply emit_get. Qed.

(** Reading the log of one render, part by part. *)
Section LogFacts.
Context {A : Type} (pick : event -> list A).

Lemma pick_forward_calls (ks : list string) :
  (forall n, pick (CallShouldForwardProp n) = []) ->
  flat_map pick (List.map CallShouldForwardProp ks) = [].
Proof.
  intros H. induction ks as [|k ks IH]; simpl; [reflexivity|].
  rewrite H, IH. reflexivity.
Qed.

Lemma pick_resolve funs c p :
  flat_map pick (calls (resolve funs c p))
  = flat_map pick
      (calls (resolveProps (fc_attrs c) (fc_shouldForwardProp c) p
                (obj_del "children" (obj_del "className" p))))
    ++ flat_map pick
         (match fc_stringsOrFn c with
          | ClassFunction _ => [CallClassFn p]
          | Strings _ _ => []
          end)
    ++ flat_map pick
         (calls (resolveClassName funs (fc_compose c) (baseClassName c p)
                   (prop p "className")))
    ++ flat_map pick
         (calls (resolveChildren (fc_childrenRenderer c) (prop p "children"))).
Proof. rewrite resolve_calls, !flat_map_app. reflexivity. Qed.
End LogFacts.

Lemma resolveClassName_calls funs compose base cnp :
  calls (resolveClassName funs compose base cnp)
  = if is_function base then [] else [CallCompose [base; cnp]].
Proof. unfold resolveClassName. destruct (is_function base); reflexivity. Qed.

Lemma resolveChildren_calls renderer children :
  calls (resolveChildren renderer children)
  = match renderer with
    | Some _ => [CallChildrenRenderer children]
    | None => []
    end.
Proof. destruct renderer; reflexivity. Qed.

(** The names the predicate is consulted for: the keys of what is
    filtered. *)
Lemma forward_args_render funs c p ref :
  forward_args (calls (render funs c p ref))
  = obj_keys (match fc_attrs c with
              | None => obj_del "children" (obj_del "className" p)
              | Some _ =>
                  mergePropsWithAttrs (resolvedAttrs (fc_attrs c) p)
                    (obj_del "children" (obj_del "className" p))
              end).
Proof.
  rewrite render_calls. unfold forward_args. rewrite pick_resolve.
  rewrite resolveClassName_calls, resolveChildren_calls, resolveProps_calls.
  assert (Hmap : forall ks,
            flat_map (fun e => match e with CallShouldForwardProp n => [n] | _ => [] end)
              (List.map CallShouldForwardProp ks) = ks).
  { induction ks as [|k ks IH]; simpl; [reflexivity|]. rewrite IH. reflexivity. }
  destruct (fc_attrs c) as [[o|f]|], (fc_stringsOrFn c),
    (is_function (baseClassName c p)), (fc_childrenRenderer c);
    simpl; rewrite Hmap, ?app_nil_r; reflexivity.
Qed.



Lemma children_args_render funs c p ref :
  children_args (calls (render funs c p ref))
  = match fc_childrenRenderer c with
    | Some _ => [prop p "children"]
    | None => []
    end.
Proof.
  rewrite render_calls. unfold children_args. rewrite pick_resolve.
  rewrite resolveClassName_calls, resolveChildren_calls, resolveProps_calls.
  destruct (fc_attrs c) as [[o|f]|], (fc_stringsOrFn c),
    (is_function (baseClassName c p)), (fc_childrenRenderer c);
    simpl; rewrite pick_forward_calls by reflexivity; reflexivity.
Qed.







(** C7. With a children renderer bound, the element's children are the
    renderer applied to the incoming [children] value, and the renderer is
    called once, with exactly that value: with undefined when the props
    have no [children]. Without a renderer the children are the incoming
    value as it is, and nothing is called. *)
Theorem children_renderer_or_identity funs (c : ForwardedComponent) (p : obj)
    (ref : value) :
  (forall renderer, fc_childrenRenderer c = Some renderer ->
     obj_get (el_props (result (render funs c p ref))) "children"
     = Some (Plain (renderer (prop p "children")))
     /\ children_args (calls (render funs c p ref)) = [prop p "children"])
  /\ (forall renderer, fc_childrenRenderer c = Some renderer ->
      obj_get p "children" = None ->
      obj_get (el_props (result (render funs c p ref))) "children"
      = Some (Plain (renderer VUndefined))
      /\ children_args (calls (render funs c p ref)) = [VUndefined])
  /\ (fc_childrenRenderer c = None ->
      obj_get (el_props (result (render funs c p ref))) "children"
      = Some (Plain (prop p "children"))
      /\ children_args (calls (render funs c p ref)) = []).
Proof.
  assert (Hsome : forall renderer, fc_childrenRenderer c = Some renderer ->
     obj_get (el_props (result (render funs c p ref))) "children"
     = Some (Plain (renderer (prop p "children")))
     /\ children_args (calls (render funs c p ref)) = [prop p "children"]).
  { intros renderer Hr. split.
    - rewrite render_get. cbv zeta. simpl String.eqb.
      rewrite resolve_finalChildren, Hr. reflexivity.
    - rewrite children_args_render, Hr. reflexivity. }
  split; [exact Hsome|split].
  - intros renderer Hr Hp. destruct (Hsome renderer Hr) as [H1 H2].
    unfold prop in H1, H2. rewrite Hp in H1, H2. split; assumption.
  - intros Hr. split.
    + rewrite render_get. cbv zeta. simpl String.eqb.
      rewrite resolve_finalChildren, Hr. reflexivity.
    + rewrite children_args_render, Hr. reflexivity.
Qed.

(** [<Badge testID="badge" />]: the renderer is called with undefined. *)
Lemma children_renderer_or_identity_witness :
  obj_get (el_props (result (render no_functions Badge [("testID", VStr "badge")] VNull)))
    "children" = Some (Plain (VStr "Fallback"))
  /\ children_args (calls (render no_functions Badge [("testID", VStr "badge")] VNull))
     = [VUndefined].
Proof.
  destruct (children_renderer_or_identity no_functions Badge
              [("testID", VStr "badge")] VNull) as (_ & H & _).
  apply (H (fun children => if is_nullish children then VStr "Fallback" else children));
    reflexivity.
Defined.

(** C8. When the class-name function returns a function for the props
    [p], the final class name is a function too: for an interaction state
    [s] it composes [classFn(p)(s)] with [classNameProp(s)] when the
    [className] prop is a function and with the [className] prop as it is
    otherwise. In every other case the final class name is the composition
    of the base class name with the [className] prop. *)
Theorem finalClassName_deferred_or_composed funs (c : ForwardedComponent) (p : obj) :
  (is_function (baseClassName c p) = true ->
   exists f,
     finalClassName (result (resolve funs c p)) = Deferred f
     /\ (is_function (prop p "className") = true ->
         forall s, f s = fc_compose c [call funs (baseClassName c p) s;
                                       call funs (prop p "className") s])
     /\ (is_function (prop p "className") = false ->
         forall s, f s = fc_compose c [call funs (baseClassName c p) s;
                                       prop p "className"]))
  /\ (is_function (baseClassName c p) = false ->
      finalClassName (result (resolve funs c p))
      = Plain (fc_compose c [baseClassName c p; prop p "className"]))
  /\ (forall fn, fc_stringsOrFn c = ClassFunction fn ->
        baseClassName c p = cf_apply fn p)
  /\ (forall strings values, fc_stringsOrFn c = Strings strings values ->
        baseClassName c p = fc_tplClassName c).
Proof.
  split; [|split; [|split]].
  - intros Hb. rewrite resolve_finalClassName. unfold resolveClassName.
    rewrite Hb. eexists. split; [reflexivity|]. split.
    + intros Hc s. rewrite Hc. reflexivity.
    + intros Hc s. rewrite Hc. reflexivity.
  - intros Hb. rewrite resolve_finalClassName. unfold resolveClassName.
    rewrite Hb. reflexivity.
  - intros fn H. unfold baseClassName. rewrite H. reflexivity.
  - intros strings values H. unfold baseClassName. rewrite H. reflexivity.
Qed.

(** A pressable with a deferred class name, rendered with a plain
    [className]: the final class name is a function of the state. *)
Lemma finalClassName_deferred_or_composed_witness :
  exists f,
    finalClassName (result (resolve pressable_functions Pressable
                              [("className", VStr "p-2")])) = Deferred f
    /\ f (VObj [("pressed", VBool true)]) = VStr "scale-95 p-2"
    /\ f (VObj [("pressed", VBool false)]) = VStr "p-2".
Proof.
  destruct (finalClassName_deferred_or_composed pressable_functions Pressable
              [("className", VStr "p-2")]) as (H & _).
  destruct (H eq_refl) as (f & Hf & _ & Hplain).
  exists f. split; [exact Hf|].
  split; rewrite (Hplain eq_refl); reflexivity.
Defined.

Lemma clsx_two_strings (T Cn : string) :
  clsx [VStr T; VStr Cn] = VStr (space_join [T; Cn]).
Proof. destruct T, Cn; reflexivity. Qed.

Lemma clsx_string_undefined (T : string) :
  clsx [VStr T; VUndefined] = VStr T.
Proof. destruct T; reflexivity. Qed.

(** Without attrs nothing but the element itself sets [className]. *)
Lemma render_className_no_attrs funs c p ref :
  fc_attrs c = None ->
  obj_get (el_props (result (render funs c p ref))) "className"
  = Some (finalClassName (result (resolve funs c p))).
Proof.
  intros Ha. rewrite render_get. cbv zeta. simpl String.eqb.
  rewrite resolve_finalProps, resolveProps_get, Ha, rest_get. simpl.
  destruct (fc_shouldForwardProp c "className"); reflexivity.
Qed.

(** C9. In the default configuration a component made from the static
    template text [T] and rendered with the class name [Cn] gets the class
    name made of [T] and [Cn] joined by one space, an empty part being
    skipped and nothing being deduplicated; without a [className] prop it
    gets [T]. In particular the template [bg-white p-4] rendered with the
    class name [shadow] and nothing else gives [bg-white p-4 shadow]. *)
Theorem default_compose_space_joins funs (C : Component) (strings : list string)
    (values : list value) (p : obj) (ref : value) :
  (forall Cn, obj_get p "className" = Some (VStr Cn) ->
     obj_get (el_props (result (render funs
                (newComponent funs (twc C) (Strings strings values)) p ref))) "className"
     = Some (Plain (VStr (space_join [string_raw funs strings values; Cn]))))
  /\ (obj_get p "className" = None ->
      obj_get (el_props (result (render funs
                 (newComponent funs (twc C) (Strings strings values)) p ref))) "className"
      = Some (Plain (VStr (string_raw funs strings values))))
  /\ el_props (result (render funs
                 (newComponent funs (twc View) (Strings ["bg-white p-4"] []))
                 [("className", VStr "shadow")] ref))
     = [("className", Plain (VStr "bg-white p-4 shadow"));
        ("children", Plain VUndefined)]
  /\ el_props (result (render funs
                 (newComponent funs (twc View) (Strings ["p-4 m-2"] []))
                 [("className", VStr "p-4")] ref))
     = [("className", Plain (VStr "p-4 m-2 p-4"));
        ("children", Plain VUndefined)].
Proof.
  split; [|split; [|split]].
  - intros Cn Hp. rewrite render_className_no_attrs by reflexivity.
    rewrite resolve_finalClassName. unfold baseClassName, prop. rewrite Hp.
    simpl. unfold resolveClassName. simpl.
    rewrite clsx_two_strings. reflexivity.
  - intros Hp. rewrite render_className_no_attrs by reflexivity.
    rewrite resolve_finalClassName. unfold baseClassName, prop. rewrite Hp.
    simpl. unfold resolveClassName. simpl.
    rewrite clsx_string_undefined. reflexivity.
  - reflexivity.
  - reflexivity.
Qed.

(** An interpolated template rendered with a class name. *)
Lemma default_compose_space_joins_witness :
  obj_get (el_props (result (render no_functions
             (newComponent no_functions (twc View)
                (Strings [""; " bg-white"] [VStr "p-4"]))
             [("testID", VStr "card"); ("className", VStr "shadow-lg")] VNull)))
    "className"
  = Some (Plain (VStr "p-4 bg-white shadow-lg")).
Proof.
  destruct (default_compose_space_joins no_functions View [""; " bg-white"] [VStr "p-4"]
              [("testID", VStr "card"); ("className", VStr "shadow-lg")] VNull)
    as (H & _).
  exact (H "shadow-lg" eq_refl).
Defined.

Lemma obj_keys_get {A : Type} (o : list (string * A)) k :
  In k (obj_keys o) -> obj_get o k <> None.
Proof.
  induction o as [|[k0 v0] o IH]; simpl; [tauto|].
  intros [->|H].
  - rewrite String.eqb_refl. discriminate.
  - destruct (String.eqb k0 k); [discriminate|apply IH, H].
Qed.

(** A name that neither the rest of the props nor the resolved attrs
    carry is never shown to the predicate. *)
Lemma forward_args_not_consulted funs c p ref k :
  obj_get (resolvedAttrs (fc_attrs c) p) k = None ->
  (k = "className" \/ k = "children") ->
  ~ In k (forward_args (calls (render funs c p ref))).
Proof.
  intros Ha Hk Hin. rewrite forward_args_render in Hin.
  apply obj_keys_get in Hin. apply Hin.
  assert (Hrest : obj_get (obj_del "children" (obj_del "className" p)) k = None).
  { rewrite rest_get. destruct Hk as [-> | ->]; reflexivity. }
  destruct (fc_attrs c) as [a|] eqn:E.
  - rewrite mergePropsWithAttrs_other by (destruct Hk as [-> | ->]; discriminate).
    rewrite Hrest. exact Ha.
  - exact Hrest.
Qed.

(** C10, as the code has it. Whatever the forwarding predicate, the
    resolved children always reach the base component, and the composed
    final class name reaches it whenever the resolved attrs carry no
    [className]; neither depends on the predicate. The predicate is shown
    the keys of the merged attrs and rest only, so it is never consulted
    for [className] or [children] unless the attrs carry that key. *)
Theorem className_children_reach_base funs (c : ForwardedComponent) (p : obj)
    (ref : value) :
  obj_get (el_props (result (render funs c p ref))) "children"
  = Some (Plain (finalChildren (result (resolve funs c p))))
  /\ (obj_get (resolvedAttrs (fc_attrs c) p) "className" = None ->
      obj_get (el_props (result (render funs c p ref))) "className"
      = Some (finalClassName (result (resolve funs c p)))
      /\ ~ In "className" (forward_args (calls (render funs c p ref))))
  /\ (obj_get (resolvedAttrs (fc_attrs c) p) "children" = None ->
      ~ In "children" (forward_args (calls (render funs c p ref))))
  /\ finalClassName (result (resolve funs c p))
     = result (resolveClassName funs (fc_compose c) (baseClassName c p)
                 (prop p "className"))
  /\ finalChildren (result (resolve funs c p))
     = result (resolveChildren (fc_childrenRenderer c) (prop p "children")).
Proof.
  split; [|split; [|split; [|split]]].
  - rewrite render_get. reflexivity.
  - intros Ha. split.
    + rewrite render_get. cbv zeta. simpl String.eqb.
      rewrite resolve_finalProps, resolveProps_get.
      destruct (fc_shouldForwardProp c "className"); [|reflexivity].
      destruct (fc_attrs c) as [a|].
      * rewrite mergePropsWithAttrs_other by discriminate.
        rewrite Ha, rest_get. reflexivity.
      * rewrite rest_get. reflexivity.
    + apply forward_args_not_consulted; [exact Ha|left; reflexivity].
  - intros Ha. apply forward_args_not_consulted; [exact Ha|right; reflexivity].
  - apply resolve_finalClassName.
  - apply resolve_finalChildren.
Qed.

(** A binder whose predicate rejects every name still hands the class
    name to the base component. *)
Lemma className_children_reach_base_witness :
  obj_get (el_props (result (render no_functions
             (newComponent no_functions
                (transientProps (twc View) (TransientFn (fun _ => true)))
                (Strings ["bg-white"] []))
             [("className", VStr "shadow"); ("children", VStr "Content")] VNull)))
    "className"
  = Some (Plain (VStr "bg-white shadow")).
Proof.
  destruct (className_children_reach_base no_functions
              (newComponent no_functions
                 (transientProps (twc View) (TransientFn (fun _ => true)))
                 (Strings ["bg-white"] []))
              [("className", VStr "shadow"); ("children", VStr "Content")] VNull)
    as (_ & H & _).
  destruct (H eq_refl) as [Hc _]. rewrite Hc. reflexivity.
Defined.

(** C10, as stated, fails. With static attrs that define [className] and
    the default predicate, the base component gets the attrs' class name
    instead of the composed one; with static attrs that define [children]
    the predicate is consulted for [children]. *)
Lemma className_children_reach_base_counterexample :
  obj_get (el_props (result (render no_functions WithClassNameAttr
             [("className", VStr "shadow")] VNull))) "className"
  = Some (Plain (VStr "x"))
  /\ finalClassName (result (resolve no_functions WithClassNameAttr
                               [("className", VStr "shadow")]))
     = Plain (VStr "bg-white shadow")
  /\ obj_get (el_props (result (render no_functions WithClassNameAttr
                [("className", VStr "shadow")] VNull))) "className"
     <> Some (finalClassName (result (resolve no_functions WithClassNameAttr
                                        [("className", VStr "shadow")])))
  /\ In "children" (forward_args (calls (render no_functions WithChildrenAttr [] VNull))).
Proof.
  split; [reflexivity|]. split; [reflexivity|]. split.
  - vm_compute. discriminate.
  - vm_compute. left. reflexivity.
Qed.

(** * Further properties of the helpers *)

(** ** Keys and well-formedness *)

Section KeyFacts.
Context {A : Type}.
Implicit Types (o : list (string * A)) (k : string).

Lemma obj_get_None_keys o k : obj_get o k = None <-> ~ In k (obj_keys o).
Proof.
  induction o as [|[k0 v0] o IH]; simpl.
  - tauto.
  - destruct (String.eqb_spec k0 k) as [->|Hne].
    + split; [discriminate|]. intros H. exfalso. apply H. left. reflexivity.
    + rewrite IH. tauto.
Qed.

Lemma obj_set_fresh o k (v : A) :
  ~ In k (obj_keys o) -> obj_set k v o = o ++ [(k, v)].
Proof.
  induction o as [|[k0 v0] o IH]; simpl; intros H; [reflexivity|].
  destruct (String.eqb_spec k0 k) as [->|Hne]; [tauto|].
  rewrite IH by tauto. reflexivity.
Qed.

Lemma obj_keys_set_present o k (v : A) :
  In k (obj_keys o) -> obj_keys (obj_set k v o) = obj_keys o.
Proof.
  induction o as [|[k0 v0] o IH]; simpl; intros H; [tauto|].
  destruct (String.eqb_spec k0 k) as [->|Hne]; simpl; [reflexivity|].
  rewrite IH; [reflexivity|]. destruct H; [congruence|assumption].
Qed.

Lemma wf_obj_set o k (v : A) : wf_obj o -> wf_obj (obj_set k v o).
Proof.
  unfold wf_obj. intros H.
  destruct (in_dec String.string_dec k (obj_keys o)) as [Hin|Hnin].
  - rewrite obj_keys_set_present by exact Hin. exact H.
  - rewrite obj_set_fresh by exact Hnin. unfold obj_keys. rewrite List.map_app.
    simpl. apply List.NoDup_app; [exact H|repeat constructor; simpl; tauto|].
    intros x Hx [<-|[]]. apply Hnin, Hx.
Qed.

Lemma wf_copy_props (target src : list (string * A)) :
  wf_obj target -> wf_obj (copy_props target src).
Proof.
  unfold copy_props. generalize (obj_keys src) as ks. intros ks. revert target.
  induction ks as [|k ks IH]; intros target H; simpl; [exact H|].
  apply IH. destruct (obj_get src k); [apply wf_obj_set, H|exact H].
Qed.

Lemma obj_get_in o k (v : A) :
  wf_obj o -> In (k, v) o -> obj_get o k = Some v.
Proof.
  unfold wf_obj. induction o as [|[k0 v0] o IH]; simpl; intros Hwf Hin; [tauto|].
  apply List.NoDup_cons_iff in Hwf. destruct Hwf as [Hk0 Hwf].
  destruct Hin as [[= -> ->]|Hin].
  - rewrite String.eqb_refl. reflexivity.
  - destruct (String.eqb_spec k0 k) as [->|Hne].
    + exfalso. apply Hk0. apply (List.in_map fst) in Hin. exact Hin.
    + apply IH; assumption.
Qed.

(** Copying well-formed properties onto an object that has none of their
    keys appends them in order. *)
Lemma copy_props_fresh (target src : list (string * A)) :
  wf_obj src ->
  (forall k, In k (obj_keys src) -> ~ In k (obj_keys target)) ->
  copy_props target src = target ++ src.
Proof.
  intros Hwf Hdisj. unfold copy_props.
  assert (Hgen : forall l target,
            wf_obj l ->
            (forall k v, In (k, v) l -> obj_get src k = Some v) ->
            (forall k, In k (obj_keys l) -> ~ In k (obj_keys target)) ->
            fold_left
              (fun acc k => match obj_get src k with
                            | Some v => obj_set k v acc
                            | None => acc
                            end) (obj_keys l) target
            = target ++ l).
  { clear target Hdisj. induction l as [|[k v] l IH]; intros target Hl Hget Hd; simpl.
    - symmetry. apply List.app_nil_r.
    - rewrite (Hget k v) by (left; reflexivity).
      rewrite obj_set_fresh by (apply Hd; left; reflexivity).
      unfold wf_obj in Hl. simpl in Hl. apply List.NoDup_cons_iff in Hl.
      destruct Hl as [Hk Hl].
      rewrite IH.
      + rewrite <- List.app_assoc. reflexivity.
      + exact Hl.
      + intros k' v' Hin. apply Hget. right. exact Hin.
      + intros k' Hin. unfold obj_keys. rewrite List.map_app, List.in_app_iff.
        simpl. intros [H|[<-|[]]].
        * apply (Hd k'); [right; exact Hin|exact H].
        * apply Hk, Hin. }
  apply Hgen; [exact Hwf| |exact Hdisj].
  intros k v Hin. apply obj_get_in; assumption.
Qed.

Lemma copy_props_empty (src : list (string * A)) :
  wf_obj src -> copy_props [] src = src.
Proof.
  intros H. rewrite copy_props_fresh; [reflexivity|exact H|].
  intros k _ [].
Qed.
End KeyFacts.

Lemma obj_keys_filter {A : Type} (f : string -> bool) (o : list (string * A)) :
  obj_keys (List.filter (fun kv => f (fst kv)) o) = List.filter f (obj_keys o).
Proof.
  induction o as [|[k v] o IH]; simpl; [reflexivity|].
  destruct (f k); simpl; rewrite IH; reflexivity.
Qed.

Lemma wf_obj_filter {A : Type} (f : string -> bool) (o : list (string * A)) :
  wf_obj o -> wf_obj (List.filter (fun kv => f (fst kv)) o).
Proof.
  unfold wf_obj. rewrite obj_keys_filter. apply List.NoDup_filter.
Qed.

Lemma filterProps_fold_wf (props : obj) (forward : string -> bool) :
  forall (l : obj) (acc : M obj),
    wf_obj l ->
    (forall k v, In (k, v) l -> prop props k = v) ->
    (forall k, In k (obj_keys l) -> ~ In k (obj_keys (result acc))) ->
    result
      (fold_left
         (fun (acc : M obj) (prop_name : string) =>
            let* filteredProps := acc in
            let* fwd := invoke (CallShouldForwardProp prop_name) (forward prop_name) in
            ret (if fwd : bool
                 then obj_set prop_name (prop props prop_name) filteredProps
                 else filteredProps))
         (obj_keys l) acc)
    = result acc ++ List.filter (fun kv => forward (fst kv)) l.
Proof.
  induction l as [|[k v] l IH]; intros acc Hl Hget Hd; simpl.
  - symmetry. apply List.app_nil_r.
  - unfold wf_obj in Hl. simpl in Hl. apply List.NoDup_cons_iff in Hl.
    destruct Hl as [Hk Hl].
    rewrite IH; [| exact Hl | intros k' v' Hin; apply Hget; right; exact Hin |].
    + unfold result, bind, invoke, ret. simpl.
      rewrite (Hget k v) by (left; reflexivity).
      destruct (forward k).
      * rewrite obj_set_fresh by (apply Hd; left; reflexivity).
        rewrite <- List.app_assoc. reflexivity.
      * reflexivity.
    + intros k' Hin. unfold result, bind, invoke, ret. simpl.
      destruct (forward k).
      * rewrite obj_set_fresh by (apply Hd; left; reflexivity).
        unfold obj_keys. rewrite List.map_app, List.in_app_iff. simpl.
        intros [H|[<-|[]]].
        -- apply (Hd k'); [right; exact Hin|exact H].
        -- apply Hk, Hin.
      * apply Hd. right. exact Hin.
Qed.

Lemma filterProps_filter (props : obj) (forward : string -> bool) :
  wf_obj props ->
  result (filterProps props forward)
  = List.filter (fun kv => forward (fst kv)) props.
Proof.
  intros Hwf. unfold filterProps.
  rewrite (filterProps_fold_wf props forward props (ret [])).
  - reflexivity.
  - exact Hwf.
  - intros k v Hin. unfold prop. rewrite (obj_get_in props k v Hwf Hin). reflexivity.
  - intros k _ [].
Qed.

(** X1. [filterProps] on an object with ordinary keys (none integer-like,
    none [__proto__]): the result is the accepted properties with their
    values, in the order of the input; it is the input itself when every
    name is accepted and the empty object when none is, and the predicate
    is consulted once per key, in key order. *)
Theorem filterProps_accepted_in_order (props : obj) (forward : string -> bool) :
  ordinary_obj props ->
  result (filterProps props forward) = List.filter (fun kv => forward (fst kv)) props
  /\ obj_keys (result (filterProps props forward)) = List.filter forward (obj_keys props)
  /\ result (filterProps props (fun _ => true)) = props
  /\ result (filterProps props (fun _ => false)) = []
  /\ forward_args (calls (filterProps props forward)) = obj_keys props.
Proof.
  intros [Hwf _]. rewrite !filterProps_filter by exact Hwf.
  split; [reflexivity|]. split; [apply obj_keys_filter|]. split; [|split].
  - induction props as [|kv o IH]; simpl; [reflexivity|].
    rewrite IH; [reflexivity|].
    unfold wf_obj in *. simpl in Hwf. apply List.NoDup_cons_iff in Hwf. tauto.
  - clear Hwf. induction props as [|kv o IH]; simpl; [reflexivity|exact IH].
  - rewrite filterProps_calls. unfold forward_args.
    generalize (obj_keys props) as ks.
    induction ks as [|k ks IH]; simpl; [reflexivity|]. rewrite IH. reflexivity.
Qed.

Lemma filterProps_accepted_in_order_witness :
  result (filterProps [("testID", VStr "card"); ("$x", VNum 3); ("onPress", VFun 0)]
            defaultForward)
  = [("testID", VStr "card"); ("onPress", VFun 0)].
Proof.
  destruct (filterProps_accepted_in_order
              [("testID", VStr "card"); ("$x", VNum 3); ("onPress", VFun 0)]
              defaultForward) as (H & _).
  - split; [repeat constructor; simpl; intuition discriminate|reflexivity].
  - rewrite H. reflexivity.
Defined.

(** X2. Filtering twice is filtering once with both predicates: the
    second pass keeps what both accept, so filtering again with the same
    predicate changes nothing. *)
Theorem filterProps_twice (props : obj) (f g : string -> bool) :
  wf_obj props ->
  result (filterProps (result (filterProps props f)) g)
  = result (filterProps props (fun k => f k && g k))
  /\ result (filterProps (result (filterProps props f)) f)
     = result (filterProps props f).
Proof.
  intros Hwf.
  assert (Hcomp : forall g',
            result (filterProps (result (filterProps props f)) g')
            = List.filter (fun kv => f (fst kv) && g' (fst kv)) props).
  { intros g'. rewrite (filterProps_filter props f Hwf).
    rewrite filterProps_filter by (apply wf_obj_filter, Hwf).
    clear Hwf. induction props as [|[k v] o IH]; simpl; [reflexivity|].
    destruct (f k); simpl; [destruct (g' k)|]; rewrite IH; reflexivity. }
  split.
  - rewrite Hcomp, filterProps_filter by exact Hwf. reflexivity.
  - rewrite Hcomp, filterProps_filter by exact Hwf.
    clear. induction props as [|[k v] o IH]; simpl; [reflexivity|].
    destruct (f k); simpl; rewrite IH; reflexivity.
Qed.

Lemma filterProps_twice_witness :
  result (filterProps
            (result (filterProps [("size", VStr "md"); ("$x", VNum 3); ("id", VStr "a")]
                       defaultForward))
            (fun k => negb (String.eqb k "size")))
  = [("id", VStr "a")].
Proof.
  destruct (filterProps_twice [("size", VStr "md"); ("$x", VNum 3); ("id", VStr "a")]
              defaultForward (fun k => negb (String.eqb k "size"))) as (H & _).
  - repeat constructor; simpl; intuition discriminate.
  - rewrite H. reflexivity.
Defined.

(** ** Style stacks *)

Lemma style_get_app (l1 l2 : list value) k :
  style_get (VArr (l1 ++ l2)) k
  = match style_get (VArr l2) k with
    | Some v => Some v
    | None => style_get (VArr l1) k
    end.
Proof.
  induction l2 as [|x l IH] using List.rev_ind.
  - rewrite List.app_nil_r. reflexivity.
  - rewrite List.app_assoc, !style_get_snoc, IH.
    destruct (style_get x k); reflexivity.
Qed.

Lemma style_get_singleton (s : value) k :
  style_get (VArr [s]) k = style_get s k.
Proof.
  change [s] with ([] ++ [s]). rewrite style_get_snoc.
  destruct (style_get s k); reflexivity.
Qed.

Lemma style_get_mergeStyles (a b : value) k :
  style_get (mergeStyles a b) k
  = match style_get b k with
    | Some v => Some v
    | None => style_get a k
    end.
Proof.
  unfold mergeStyles.
  destruct (is_nullish a) eqn:Ha.
  - destruct a; try discriminate; destruct (style_get b k); reflexivity.
  - destruct (is_nullish b) eqn:Hb.
    + destruct b; try discriminate; reflexivity.
    + unfold style_get at 1. simpl. apply obj_get_spread2.
Qed.

(** X3. Flattening a style stack: the layers are read left to right, so a
    stack made of two parts reads each key from the second part first;
    nesting a stack inside a stack changes nothing; a layer that is null,
    undefined, a boolean or a number contributes nothing; and flattening
    a flattened style changes nothing. *)
Theorem flattenStyle_stack_laws :
  (forall l1 l2 k,
     style_get (VArr (l1 ++ l2)) k
     = match style_get (VArr l2) k with
       | Some v => Some v
       | None => style_get (VArr l1) k
       end)
  /\ (forall l1 l2 l3 k,
        style_get (VArr (l1 ++ [VArr l2] ++ l3)) k = style_get (VArr (l1 ++ l2 ++ l3)) k)
  /\ (forall l1 x l3 k,
        match x with
        | VNull | VUndefined | VBool _ | VNum _ => True
        | _ => False
        end ->
        style_get (VArr (l1 ++ [x] ++ l3)) k = style_get (VArr (l1 ++ l3)) k)
  /\ (forall s, flattenStyle (flattenStyle s) = flattenStyle s).
Proof.
  split; [|split; [|split]].
  - apply style_get_app.
  - intros l1 l2 l3 k.
    rewrite !(style_get_app l1), !(style_get_app _ l3), style_get_singleton.
    reflexivity.
  - intros l1 x l3 k Hx.
    rewrite !(style_get_app l1), (style_get_app _ l3), style_get_singleton.
    assert (Hn : style_get x k = None) by (destruct x; try contradiction; reflexivity).
    rewrite Hn. destruct (style_get (VArr l3) k); reflexivity.
  - intros s. destruct s; reflexivity.
Qed.

Lemma flattenStyle_stack_laws_witness :
  style_get (VArr [VObj [("a", VNum 1)]; VBool false; VObj [("b", VNum 2)]]) "a"
  = style_get (VArr [VObj [("a", VNum 1)]; VObj [("b", VNum 2)]]) "a".
Proof.
  destruct flattenStyle_stack_laws as (_ & _ & H & _).
  apply (H [VObj [("a", VNum 1)]] (VBool false) [VObj [("b", VNum 2)]] "a").
  exact I.
Defined.

(** X4. [mergeStyles(a, b)] reads like the two-layer stack [[a, b]]: each
    key comes from [b] when [b] has it and from [a] otherwise, also when a
    side is missing. Merging is therefore associative on what the styles
    hold, and merging a style with itself holds what the style holds. *)
Theorem mergeStyles_reads_as_stack (a b c : value) (k : string) :
  style_get (mergeStyles a b) k = style_get (VArr [a; b]) k
  /\ style_get (mergeStyles a b) k
     = match style_get b k with
       | Some v => Some v
       | None => style_get a k
       end
  /\ style_get (mergeStyles (mergeStyles a b) c) k
     = style_get (mergeStyles a (mergeStyles b c)) k
  /\ style_get (mergeStyles a a) k = style_get a k.
Proof.
  split; [|split; [|split]].
  - rewrite style_get_mergeStyles.
    change [a; b] with ([a] ++ [b]). rewrite style_get_snoc, style_get_singleton.
    reflexivity.
  - apply style_get_mergeStyles.
  - rewrite !style_get_mergeStyles.
    destruct (style_get c k); reflexivity.
  - rewrite style_get_mergeStyles. destruct (style_get a k); reflexivity.
Qed.

(** ** Key order of the attrs / props merge *)

Lemma obj_has_In {A : Type} (o : list (string * A)) k :
  obj_has o k = true <-> In k (obj_keys o).
Proof.
  unfold obj_has. destruct (obj_get o k) eqn:E.
  - split; [|reflexivity]. intros _.
    destruct (in_dec String.string_dec k (obj_keys o)) as [H|H]; [exact H|].
    apply obj_get_None_keys in H. congruence.
  - split; [discriminate|]. intros H. apply obj_get_None_keys in E. tauto.
Qed.

Lemma copy_props_keys {A : Type} (target src : list (string * A)) :
  wf_obj src ->
  obj_keys (copy_props target src)
  = obj_keys target ++ List.filter (fun k => negb (obj_has target k)) (obj_keys src).
Proof.
  intros Hwf. unfold copy_props.
  assert (Hsrc : forall k, In k (obj_keys src) -> obj_get src k <> None)
    by (intros k; apply obj_keys_get).
  unfold wf_obj in Hwf. revert Hwf Hsrc target.
  generalize (obj_keys src) as ks.
  induction ks as [|k ks IH]; intros Hnd Hsrc target; simpl.
  - symmetry. apply List.app_nil_r.
  - apply List.NoDup_cons_iff in Hnd. destruct Hnd as [Hk Hnd].
    destruct (obj_get src k) as [v|] eqn:E;
      [|exfalso; apply (Hsrc k); [left; reflexivity|exact E]].
    rewrite IH; [|exact Hnd|intros k' H; apply Hsrc; right; exact H].
    assert (Hext : List.filter (fun k' => negb (obj_has (obj_set k v target) k')) ks
                   = List.filter (fun k' => negb (obj_has target k')) ks).
    { apply List.filter_ext_in. intros k' Hin. unfold obj_has.
      rewrite obj_get_set. destruct (String.eqb_spec k k') as [->|_]; [tauto|reflexivity]. }
    rewrite Hext. destruct (obj_has target k) eqn:Hhas; simpl.
    + rewrite obj_keys_set_present by (apply obj_has_In, Hhas). reflexivity.
    + rewrite obj_set_fresh.
      * unfold obj_keys. rewrite List.map_app, <- List.app_assoc. reflexivity.
      * intros H. apply obj_has_In in H. congruence.
Qed.

(** X5. For attrs and props with ordinary keys (none integer-like, none
    [__proto__]) the merged props list the attrs' keys first, in the
    attrs' order, then the props' keys the attrs do not have, in the
    props' order: merging never reorders or drops a key. With no attrs
    the merge is the props themselves, with no props it is the attrs
    themselves. *)
Theorem mergePropsWithAttrs_key_order (attrs props : obj) :
  ordinary_obj attrs -> ordinary_obj props ->
  obj_keys (mergePropsWithAttrs attrs props)
  = obj_keys attrs ++ List.filter (fun k => negb (obj_has attrs k)) (obj_keys props)
  /\ mergePropsWithAttrs [] props = props
  /\ mergePropsWithAttrs attrs [] = attrs.
Proof.
  intros [Ha _] [Hp _].
  assert (Hspread : spread2 (VObj attrs) (VObj props) = copy_props attrs props).
  { unfold spread2. simpl. rewrite copy_props_empty by exact Ha. reflexivity. }
  split; [|split].
  - unfold mergePropsWithAttrs. rewrite Hspread.
    destruct (negb (is_nullish (prop attrs "style")) &&
              negb (is_nullish (prop props "style"))) eqn:E.
    + rewrite obj_keys_set_present; [apply copy_props_keys, Hp|].
      apply obj_has_In. unfold obj_has. rewrite obj_get_copy_props.
      apply andb_prop in E. destruct E as [_ E]. unfold prop in E.
      destruct (obj_get props "style"); [reflexivity|discriminate].
    + apply copy_props_keys, Hp.
  - unfold mergePropsWithAttrs, spread2. simpl. apply copy_props_empty, Hp.
  - unfold mergePropsWithAttrs, spread2. simpl. rewrite andb_false_r.
    apply copy_props_empty, Ha.
Qed.

Lemma mergePropsWithAttrs_key_order_witness :
  obj_keys (mergePropsWithAttrs
              [("style", VObj [("padding", VNum 10)]); ("testID", VStr "a")]
              [("id", VStr "x"); ("style", VObj [("margin", VNum 5)])])
  = ["style"; "testID"; "id"].
Proof.
  destruct (mergePropsWithAttrs_key_order
              [("style", VObj [("padding", VNum 10)]); ("testID", VStr "a")]
              [("id", VStr "x"); ("style", VObj [("margin", VNum 5)])]) as (H & _).
  - split; [repeat constructor; simpl; intuition discriminate|reflexivity].
  - split; [repeat constructor; simpl; intuition discriminate|reflexivity].
  - rewrite H. reflexivity.
Defined.

(** ** More on one render *)

(** X6. The callbacks of one render, in call order: the attrs function
    (when the attrs are a function) with the incoming props, the
    forwarding predicate once per key of what is filtered, the class-name
    function (when there is one) with the incoming props, [compose] with
    the base class name and the [className] prop unless the class name is
    deferred, and the children renderer (when one is bound) with the
    incoming children. Nothing is called twice and nothing else is called. *)
Theorem render_callback_order funs (c : ForwardedComponent) (p : obj) (ref : value) :
  calls (render funs c p ref)
  = match fc_attrs c with
    | Some (AttrsFunction _) => [CallAttrs p]
    | _ => []
    end
    ++ List.map CallShouldForwardProp
         (obj_keys (match fc_attrs c with
                    | None => obj_del "children" (obj_del "className" p)
                    | Some _ =>
                        mergePropsWithAttrs (resolvedAttrs (fc_attrs c) p)
                          (obj_del "children" (obj_del "className" p))
                    end))
    ++ match fc_stringsOrFn c with
       | ClassFunction _ => [CallClassFn p]
       | Strings _ _ => []
       end
    ++ (if is_function (baseClassName c p) then []
        else [CallCompose [baseClassName c p; prop p "className"]])
    ++ match fc_childrenRenderer c with
       | Some _ => [CallChildrenRenderer (prop p "children")]
       | None => []
       end.
Proof.
  rewrite render_calls, resolve_calls, resolveProps_calls,
    resolveClassName_calls, resolveChildren_calls.
  destruct (fc_attrs c) as [[o|f]|]; reflexivity.
Qed.

Lemma wf_rest (p : obj) :
  wf_obj p -> wf_obj (obj_del "children" (obj_del "className" p)).
Proof.
  intros H. unfold obj_del.
  apply (wf_obj_filter (fun k => negb (String.eqb k "children"))).
  apply (wf_obj_filter (fun k => negb (String.eqb k "className"))). exact H.
Qed.

Lemma obj_keys_map_Plain (o : obj) :
  obj_keys (List.map (fun kv => (fst kv, Plain (snd kv))) o) = obj_keys o.
Proof.
  unfold obj_keys. rewrite List.map_map. reflexivity.
Qed.

(** X7. Without attrs, and for incoming props with ordinary keys (none
    integer-like, none [__proto__]) that hold neither [ref] nor [key], the
    element's props are, in this order: the final class name, the incoming
    props other than [className] and [children] that the predicate
    accepts, in their incoming order and with their values, and the final
    children. The ref and the base component are passed on as they are. *)
Theorem render_element_without_attrs funs (c : ForwardedComponent) (p : obj)
    (ref : value) :
  ordinary_obj p ->
  obj_get p "ref" = None ->
  obj_get p "key" = None ->
  fc_attrs c = None ->
  el_props (result (render funs c p ref))
  = ("className", finalClassName (result (resolve funs c p)))
    :: List.map (fun kv => (fst kv, Plain (snd kv)))
         (List.filter (fun kv => fc_shouldForwardProp c (fst kv))
            (obj_del "children" (obj_del "className" p)))
    ++ [("children", Plain (finalChildren (result (resolve funs c p))))]
  /\ el_ref (result (render funs c p ref)) = ref
  /\ el_type (result (render funs c p ref)) = fc_Component c.
Proof.
  intros [Hwf _] _ _ Ha. rewrite render_result. cbv zeta.
  split; [|split; reflexivity].
  set (cn := finalClassName _). set (ch := finalChildren _).
  rewrite resolve_finalProps, Ha.
  unfold emit. cbn [el_props resolveProps].
  rewrite filterProps_filter by (apply wf_rest, Hwf).
  set (fp := List.filter _ _).
  assert (Hfp : wf_obj fp) by (apply wf_obj_filter, wf_rest, Hwf).
  assert (Hkeys : forall k, In k (obj_keys fp) -> k <> "className" /\ k <> "children").
  { intros k Hin. unfold fp in Hin. rewrite obj_keys_filter in Hin.
    apply List.filter_In in Hin. destruct Hin as [Hin _].
    apply obj_keys_get in Hin. rewrite rest_get in Hin.
    split; intros ->; apply Hin; reflexivity. }
  rewrite copy_props_fresh.
  - rewrite obj_set_fresh; [reflexivity|].
    unfold obj_keys. rewrite List.map_app. simpl.
    fold (obj_keys (List.map (fun kv => (fst kv, Plain (snd kv))) fp)).
    rewrite obj_keys_map_Plain. intros [H|H]; [discriminate|].
    destruct (Hkeys _ H) as [_ Hc]. apply Hc. reflexivity.
  - unfold wf_obj. rewrite obj_keys_map_Plain. exact Hfp.
  - intros k Hin. rewrite obj_keys_map_Plain in Hin. simpl.
    intros [<-|[]]. destruct (Hkeys _ Hin) as [Hc _]. apply Hc. reflexivity.
Qed.

Lemma render_element_without_attrs_witness :
  el_props (result (render no_functions
              (newComponent no_functions (twc View) (Strings ["bg-white"] []))
              [("testID", VStr "card"); ("className", VStr "p-4"); ("$x", VNum 1);
               ("children", VStr "Content"); ("id", VStr "c")] VNull))
  = [("className", Plain (VStr "bg-white p-4")); ("testID", Plain (VStr "card"));
     ("id", Plain (VStr "c")); ("children", Plain (VStr "Content"))].
Proof.
  destruct (render_element_without_attrs no_functions
              (newComponent no_functions (twc View) (Strings ["bg-white"] []))
              [("testID", VStr "card"); ("className", VStr "p-4"); ("$x", VNum 1);
               ("children", VStr "Content"); ("id", VStr "c")] VNull) as (H & _).
  - split; [repeat constructor; simpl; intuition discriminate|reflexivity].
  - reflexivity.
  - reflexivity.
  - reflexivity.
  - rewrite H. reflexivity.
Defined.

(** X8. A prop other than [className], [children] and [style], and other
    than the names the framework or the language treat specially ([ref],
    [key], [__proto__]), reaches the element exactly when the predicate
    accepts its name, with the incoming value when the incoming props have
    it and with the attrs' value otherwise: attrs are defaults that the
    caller's props override, and the predicate filters attrs and props
    alike. *)
Theorem render_attrs_are_defaults funs (c : ForwardedComponent) (p : obj)
    (ref : value) (k : string) :
  k <> "className" -> k <> "children" -> k <> "style" ->
  k <> "ref" -> k <> "key" -> k <> "__proto__" ->
  obj_get (el_props (result (render funs c p ref))) k
  = if fc_shouldForwardProp c k
    then match obj_get p k with
         | Some v => Some (Plain v)
         | None => option_map Plain (obj_get (resolvedAttrs (fc_attrs c) p) k)
         end
    else None.
Proof.
  intros Hn Hc Hs _ _ _. rewrite render_get. cbv zeta.
  destruct (String.eqb_spec "children" k) as [E|_]; [congruence|].
  destruct (String.eqb_spec "className" k) as [E|_]; [congruence|].
  assert (Hrest : obj_get (obj_del "children" (obj_del "className" p)) k = obj_get p k).
  { rewrite rest_get.
    destruct (String.eqb_spec "children" k) as [E|_]; [congruence|].
    destruct (String.eqb_spec "className" k) as [E|_]; [congruence|reflexivity]. }
  rewrite resolve_finalProps, resolveProps_get.
  destruct (fc_shouldForwardProp c k); [|reflexivity].
  destruct (fc_attrs c) as [a|].
  - rewrite mergePropsWithAttrs_other by exact Hs. rewrite Hrest.
    destruct (obj_get p k); [reflexivity|].
    destruct (obj_get (resolvedAttrs (Some a) p) k); reflexivity.
  - rewrite Hrest. destruct (obj_get p k); reflexivity.
Qed.

Lemma render_attrs_are_defaults_witness :
  obj_get (el_props (result (render no_functions Button
             [("testID", VStr "b"); ("$variant", VStr "primary")] VNull)))
    "accessibilityLabel"
  = Some (Plain (VStr "primary")).
Proof.
  rewrite (render_attrs_are_defaults no_functions Button
             [("testID", VStr "b"); ("$variant", VStr "primary")] VNull
             "accessibilityLabel"); [reflexivity|discriminate..].
Defined.

Lemma mergePropsWithAttrs_both_styles (attrs props : obj) :
  is_nullish (prop attrs "style") = false ->
  is_nullish (prop props "style") = false ->
  exists merged,
    obj_get (mergePropsWithAttrs attrs props) "style" = Some (VObj merged)
    /\ forall k,
         obj_get merged k
         = match style_get (prop props "style") k with
           | Some v => Some v
           | None => style_get (prop attrs "style") k
           end.
Proof.
  intros Ha Hp. unfold mergePropsWithAttrs. rewrite Ha, Hp. simpl.
  eexists. split.
  - rewrite obj_get_set, String.eqb_refl. unfold mergeStyles.
    rewrite Ha, Hp. reflexivity.
  - intros k. apply obj_get_spread2.
Qed.

(** X9. The [style] the element gets. When the predicate rejects [style]
    there is none, whatever the attrs and the props hold. When it accepts
    [style] and both the resolved attrs and the props carry a style that
    is neither null nor undefined, the element gets a fresh object that
    reads each key from the props' style first and from the attrs' style
    otherwise; when the props have no [style] key the element gets the
    attrs' style as it is. *)
Theorem render_style funs (c : ForwardedComponent) (p : obj) (ref : value)
    (a : Attributes) :
  fc_attrs c = Some a ->
  (fc_shouldForwardProp c "style" = false ->
   obj_get (el_props (result (render funs c p ref))) "style" = None)
  /\ (fc_shouldForwardProp c "style" = true ->
      is_nullish (prop (resolvedAttrs (fc_attrs c) p) "style") = false ->
      is_nullish (prop p "style") = false ->
      exists merged,
        obj_get (el_props (result (render funs c p ref))) "style"
        = Some (Plain (VObj merged))
        /\ forall k,
             obj_get merged k
             = match style_get (prop p "style") k with
               | Some v => Some v
               | None => style_get (prop (resolvedAttrs (fc_attrs c) p) "style") k
               end)
  /\ (fc_shouldForwardProp c "style" = true ->
      obj_get p "style" = None ->
      obj_get (el_props (result (render funs c p ref))) "style"
      = option_map Plain (obj_get (resolvedAttrs (fc_attrs c) p) "style")).
Proof.
  intros Ha.
  assert (Hget : obj_get (el_props (result (render funs c p ref))) "style"
                 = if fc_shouldForwardProp c "style"
                   then option_map Plain
                          (obj_get (mergePropsWithAttrs (resolvedAttrs (fc_attrs c) p)
                                      (obj_del "children" (obj_del "className" p)))
                             "style")
                   else None).
  { rewrite render_get. cbv zeta. simpl String.eqb.
    rewrite resolve_finalProps, resolveProps_get, Ha.
    destruct (fc_shouldForwardProp c "style"); [|reflexivity].
    destruct (obj_get _ "style"); reflexivity. }
  assert (Hrest : obj_get (obj_del "children" (obj_del "className" p)) "style"
                  = obj_get p "style") by (rewrite rest_get; reflexivity).
  assert (Hprop : prop (obj_del "children" (obj_del "className" p)) "style"
                  = prop p "style") by (unfold prop; rewrite Hrest; reflexivity).
  rewrite Hget. split; [|split].
  - intros ->. reflexivity.
  - intros -> HA HB.
    destruct (mergePropsWithAttrs_both_styles
                (resolvedAttrs (fc_attrs c) p)
                (obj_del "children" (obj_del "className" p))) as (m & Hm & Hk).
    + exact HA.
    + rewrite Hprop. exact HB.
    + exists m. rewrite Hm. split; [reflexivity|].
      intros k. rewrite Hk, Hprop. reflexivity.
  - intros -> Hp.
    destruct (mergePropsWithAttrs_style_one_side (resolvedAttrs (fc_attrs c) p)
                (obj_del "children" (obj_del "className" p))) as [H _].
    rewrite H by (rewrite Hrest; exact Hp). reflexivity.
Qed.

Lemma render_style_witness :
  exists merged,
    obj_get (el_props (result (render no_functions Card
               [("style", VObj [("margin", VNum 20); ("backgroundColor", VStr "blue")])]
               VNull))) "style"
    = Some (Plain (VObj merged))
    /\ obj_get merged "backgroundColor" = Some (VStr "blue")
    /\ obj_get merged "padding" = Some (VNum 10)
    /\ obj_get merged "margin" = Some (VNum 20).
Proof.
  destruct (render_style no_functions Card
              [("style", VObj [("margin", VNum 20); ("backgroundColor", VStr "blue")])]
              VNull _ eq_refl) as (_ & H & _).
  destruct (H eq_refl eq_refl eq_refl) as (m & Hm & Hk).
  exists m. split; [exact Hm|]. rewrite !Hk. repeat split.
Defined.

(** X10. Attrs given as a function resolve to the same element as static
    attrs equal to what the function returns for the incoming props; the
    only difference is the call of the function, made first, with the
    incoming props. *)
Theorem render_dynamic_attrs_as_static funs compose C (f : obj -> obj)
    (forward : string -> bool) (renderer : option (value -> value))
    (stringsOrFn : TemplateInput) (p : obj) (ref : value) :
  let dynamic :=
    newComponent funs (createTemplate compose C (Some (AttrsFunction f)) forward renderer)
      stringsOrFn in
  let static :=
    newComponent funs (createTemplate compose C (Some (AttrsObject (f p))) forward renderer)
      stringsOrFn in
  result (render funs dynamic p ref) = result (render funs static p ref)
  /\ calls (render funs dynamic p ref) = CallAttrs p :: calls (render funs static p ref).
Proof.
  intros dynamic static. split.
  - rewrite !render_result. cbv zeta.
    rewrite !resolve_finalProps, !resolve_finalClassName, !resolve_finalChildren.
    unfold dynamic, static. simpl. rewrite result_bind. reflexivity.
  - rewrite !render_calls, !resolve_calls, !resolveProps_calls.
    unfold dynamic, static. reflexivity.
Qed.

(** ** The instance cache over time *)

(** X11. The cache stays coherent. A binder that starts with an empty
    cache is coherent with any heap; an invocation of a coherent binder
    leaves it coherent, only ever appends to the heap, and returns a
    reference to a component that this binder built (with the binder's
    attrs, predicate, renderer and composer) for an input with the
    requested cache key. Components other binders append do not disturb
    this. *)
Theorem template_cache_coherent funs (t : Template) (i : TemplateInput) (h : heap) :
  cache_ok funs t h ->
  (let '(c, t', h') := template funs t i h in
   cache_ok funs t' h'
   /\ (exists i', h' !! c = Some (newComponent funs t i')
                  /\ cacheKey funs i' = cacheKey funs i)
   /\ (exists more, h' = h ++ more))
  /\ (forall more, cache_ok funs t (h ++ more))
  /\ (forall compose C a forward renderer h0,
        cache_ok funs (createTemplate compose C a forward renderer) h0).
Proof.
  intros Hok. split; [|split].
  - destruct (template funs t i h) as [[c t'] h'] eqn:E.
    apply (cache_ok_template funs t i h c t' h' Hok E).
  - intros more key c Hc. destruct (Hok key c Hc) as (i0 & Hi0 & Hkey).
    exists i0. split; [|exact Hkey].
    rewrite lookup_app_l by (eapply lookup_lt_Some, Hi0). exact Hi0.
  - intros compose C a forward renderer h0 key c Hc. simpl in Hc.
    rewrite lookup_empty in Hc. discriminate.
Qed.

Lemma template_cache_coherent_witness :
  let '(c, t', h') :=
    template no_functions (twc View) (Strings ["bg-white"] []) [] in
  cache_ok no_functions t' h'
  /\ (exists i', h' !! c = Some (newComponent no_functions (twc View) i')
                 /\ cacheKey no_functions i' = "bg-white")
  /\ (exists more, h' = [] ++ more).
Proof.
  apply (template_cache_coherent no_functions (twc View) (Strings ["bg-white"] []) []).
  intros key c Hc. simpl in Hc. rewrite lookup_empty in Hc. discriminate.
Defined.

(** X12. The first input wins. When two inputs have the same cache key
    (two functions with the same source text, or a function whose source
    text is a literal template's text), the second invocation returns the
    component built for the first input: its renders start from the first
    input's class name, and the second input is never looked at. *)
Theorem template_first_input_wins funs (t : Template) (i1 i2 : TemplateInput)
    (h : heap) :
  componentCache t !! cacheKey funs i1 = None ->
  cacheKey funs i1 = cacheKey funs i2 ->
  exists c t1 h1,
    template funs t i1 h = (c, t1, h1)
    /\ template funs t1 i2 h1 = (c, t1, h1)
    /\ h1 !! c = Some (newComponent funs t i1)
    /\ fc_stringsOrFn (newComponent funs t i1) = i1
    /\ forall p, baseClassName (newComponent funs t i1) p
                 = match i1 with
                   | ClassFunction fn => cf_apply fn p
                   | Strings _ _ => VStr (cacheKey funs i1)
                   end.
Proof.
  intros Hmiss Hkey.
  destruct (template_miss funs t i1 h Hmiss) as (t1 & Ht & Hc).
  exists (length h), t1, (h ++ [newComponent funs t i1]).
  split; [exact Ht|]. split; [|split; [|split]].
  - apply template_hit. rewrite <- Hkey. exact Hc.
  - rewrite lookup_app_r by reflexivity. rewrite Nat.sub_diag. reflexivity.
  - reflexivity.
  - intros p. destruct i1; reflexivity.
Qed.

Lemma template_first_input_wins_witness :
  exists c t1 h1,
    template no_functions (twc View) (ClassFunction classFn_blue) [] = (c, t1, h1)
    /\ template no_functions t1 (ClassFunction classFn_red) h1 = (c, t1, h1)
    /\ h1 !! c = Some (newComponent no_functions (twc View) (ClassFunction classFn_blue)).
Proof.
  destruct (template_first_input_wins no_functions (twc View)
              (ClassFunction classFn_blue) (ClassFunction classFn_red) [])
    as (c & t1 & h1 & H1 & H2 & H3 & _).
  - reflexivity.
  - reflexivity.
  - exists c, t1, h1. repeat split; assumption.
Defined.

Lemma template_all_keeps funs (inputs : list TemplateInput) :
  forall (t : Template) (h : heap) key c,
    componentCache t !! key = Some c ->
    componentCache (fst (template_all funs t inputs h)) !! key = Some c.
Proof.
  induction inputs as [|i inputs IH]; intros t h key c Hk; simpl; [exact Hk|].
  destruct (template funs t i h) as [[c' t'] h'] eqn:E.
  apply IH. eapply template_keeps; eassumption.
Qed.

(** X13. The cache never evicts: once an invocation returned a component,
    the same input returns the same reference after any number of other
    invocations of the binder, and builds nothing. *)
Theorem template_cache_never_evicts funs (t : Template) (i : TemplateInput)
    (h : heap) (inputs : list TemplateInput) c t1 h1 :
  template funs t i h = (c, t1, h1) ->
  let '(t2, h2) := template_all funs t1 inputs h1 in
  template funs t2 i h2 = (c, t2, h2).
Proof.
  intros Ht. destruct (template_all funs t1 inputs h1) as [t2 h2] eqn:E.
  apply template_hit.
  change t2 with (fst (t2, h2)). rewrite <- E.
  apply template_all_keeps. eapply template_cached, Ht.
Qed.

Lemma template_cache_never_evicts_witness :
  let '(t2, h2) :=
    template_all no_functions
      (snd (fst (template no_functions (twc View) (Strings ["a"] []) [])))
      [Strings ["b"] []; Strings ["c"] []; Strings ["a"] []]
      (snd (template no_functions (twc View) (Strings ["a"] []) [])) in
  template no_functions t2 (Strings ["a"] []) h2 = (0, t2, h2).
Proof.
  apply (template_cache_never_evicts no_functions (twc View) (Strings ["a"] []) []
           [Strings ["b"] []; Strings ["c"] []; Strings ["a"] []]).
  reflexivity.
Defined.

(** X14. Caches are per binder. Every modifier, and every call of the
    factory on a base component, returns a binder with an empty cache; the
    first invocation of such a binder always builds a new component, so it
    never returns a component another binder returned, even for the same
    template text. *)
Theorem fresh_binder_builds_new_component funs (t : Template) (i : TemplateInput)
    (h : heap) c t1 h1 :
  cache_ok funs t h ->
  template funs t i h = (c, t1, h1) ->
  (forall t' i', componentCache t' = ∅ ->
     exists t1',
       template funs t' i' h1 = (length h1, t1', h1 ++ [newComponent funs t' i'])
       /\ length h1 <> c)
  /\ (forall a, componentCache (transientProps t a) = ∅)
  /\ (forall r, componentCache (withChildren t r) = ∅)
  /\ (forall a t', attrs t a = Some t' -> componentCache t' = ∅)
  /\ (forall config C, componentCache (createTwc config C) = ∅).
Proof.
  intros Hok Ht. split; [|split; [|split; [|split]]]; try reflexivity.
  - intros t' i' Hempty.
    assert (Hmiss : componentCache t' !! cacheKey funs i' = None)
      by (rewrite Hempty; apply lookup_empty).
    destruct (template_miss funs t' i' h1 Hmiss) as (t1' & Ht' & _).
    exists t1'. split; [exact Ht'|].
    destruct (cache_ok_template funs t i h c t1 h1 Hok Ht) as (_ & (i0 & Hi0 & _) & _).
    apply lookup_lt_Some in Hi0. lia.
  - intros a t'. unfold attrs. destruct (t_attrs t); [discriminate|].
    intros [= <-]. reflexivity.
Qed.

(** [twc(View)] evaluated twice gives two binders, and the same template
    text gives two components. *)
Lemma fresh_binder_builds_new_component_witness :
  exists t1',
    template no_functions (twc View) (Strings ["bg-white"] [])
      (snd (template no_functions (twc View) (Strings ["bg-white"] []) []))
    = (1, t1', snd (template no_functions (twc View) (Strings ["bg-white"] []) [])
                 ++ [newComponent no_functions (twc View) (Strings ["bg-white"] [])])
    /\ 1 <> 0.
Proof.
  destruct (fresh_binder_builds_new_component no_functions (twc View)
              (Strings ["bg-white"] []) [] 0
              (snd (fst (template no_functions (twc View) (Strings ["bg-white"] []) [])))
              (snd (template no_functions (twc View) (Strings ["bg-white"] []) [])))
    as (H & _).
  - intros key c Hc. simpl in Hc. rewrite lookup_empty in Hc. discriminate.
  - reflexivity.
  - apply (H (twc View) (Strings ["bg-white"] [])). reflexivity.
Defined.

(** ** Modifiers, names and keys *)

(** X15. How the modifiers compose. [transientProps] and [withChildren]
    replace what an earlier call of the same modifier installed (the last
    call wins, nothing is accumulated) and commute with each other and
    with [attrs]; [attrs] is available only until it has been called
    once, whatever modifiers follow. *)
Theorem modifier_laws (t : Template) (a b : TransientProps)
    (r r' : value -> value) (at1 at2 : Attributes) :
  transientProps (transientProps t a) b = transientProps t b
  /\ withChildren (withChildren t r) r' = withChildren t r'
  /\ withChildren (transientProps t a) r = transientProps (withChildren t r) a
  /\ attrs (withChildren t r) at1
     = option_map (fun t' => withChildren t' r) (attrs t at1)
  /\ attrs (transientProps t a) at1
     = option_map (fun t' => transientProps t' a) (attrs t at1)
  /\ (forall t', attrs t at1 = Some t' ->
        attrs t' at2 = None
        /\ attrs (withChildren t' r) at2 = None
        /\ attrs (transientProps t' a) at2 = None
        /\ t_attrs t' = Some at1).
Proof.
  split; [reflexivity|]. split; [reflexivity|]. split; [reflexivity|].
  split; [|split].
  - unfold attrs. simpl. destruct (t_attrs t); reflexivity.
  - unfold attrs. simpl. destruct (t_attrs t); reflexivity.
  - intros t'. unfold attrs. destruct (t_attrs t); [discriminate|].
    intros [= <-]. repeat split.
Qed.

(** X16. The debug name of a wrapped component is [twc(label)] where the
    label is the base component's [displayName] when it is set and not
    empty, else its [name] when not empty, else [Component]; the label is
    never empty. *)
Theorem displayName_label funs (t : Template) (stringsOrFn : TemplateInput) :
  fc_displayName (newComponent funs t stringsOrFn)
  = ("twc(" ++ component_label (t_Component t) ++ ")")%string
  /\ component_label (t_Component t) <> ""
  /\ (forall d, displayName (t_Component t) = Some d -> d <> "" ->
        component_label (t_Component t) = d)
  /\ (displayName (t_Component t) = None \/ displayName (t_Component t) = Some "" ->
      component_label (t_Component t)
      = if String.eqb (name (t_Component t)) "" then "Component"
        else name (t_Component t)).
Proof.
  split; [reflexivity|]. unfold component_label.
  destruct (t_Component t) as [[d|] n]; simpl.
  - split; [|split].
    + destruct (String.eqb_spec d ""); [|assumption].
      destruct (String.eqb_spec n ""); [discriminate|assumption].
    + intros d' [= <-] Hd. apply String.eqb_neq in Hd. rewrite Hd. reflexivity.
    + intros [H|[= ->]]; [discriminate|reflexivity].
  - split; [|split].
    + destruct (String.eqb_spec n ""); [discriminate|assumption].
    + intros d' H. discriminate.
    + reflexivity.
Qed.

(** X17. The default predicate rejects exactly the names whose first
    character is [$]; the empty name is forwarded. *)
Theorem defaultForward_rejects_dollar (prop_name : string) :
  (defaultForward prop_name = false <-> exists rest, prop_name = String "$"%char rest)
  /\ defaultForward "" = true.
Proof.
  split; [|reflexivity]. destruct prop_name as [|ch rest]; simpl.
  - split; [discriminate|]. intros [rest' H]. discriminate.
  - destruct (Ascii.eqb_spec ch "$"%char) as [->|Hne]; simpl.
    + split; [|reflexivity]. intros _. exists rest. reflexivity.
    + split; [discriminate|]. intros [rest' [= E _]]. contradiction.
Qed.

Lemma string_raw_surplus funs (strings : list string) :
  forall values surplus,
    length strings <= S (length values) ->
    string_raw funs strings (values ++ surplus) = string_raw funs strings values.
Proof.
  induction strings as [|s rest IH]; intros values surplus Hlen; [reflexivity|].
  destruct rest as [|s' rest]; [reflexivity|].
  destruct values as [|v vs]; simpl in Hlen; [lia|].
  change (s ++ to_string funs v ++ string_raw funs (s' :: rest) (vs ++ surplus)
          = s ++ to_string funs v ++ string_raw funs (s' :: rest) vs)%string.
  rewrite IH by (simpl in *; lia). reflexivity.
Qed.

(** X18. Invoking a binder as a plain function with more values than the
    fragments have gaps: the surplus values are ignored, so the cache key,
    and with it the component, is the one of the invocation without them.
    With no values at all the key is the fragments put together. *)
Theorem cacheKey_surplus_values funs (strings : list string)
    (values surplus : list value) :
  length strings <= S (length values) ->
  cacheKey funs (Strings strings (values ++ surplus))
  = cacheKey funs (Strings strings values)
  /\ (forall t h c t1 h1,
        template funs t (Strings strings values) h = (c, t1, h1) ->
        template funs t1 (Strings strings (values ++ surplus)) h1 = (c, t1, h1))
  /\ cacheKey funs (Strings strings []) = String.concat "" strings.
Proof.
  intros Hlen.
  assert (Hk : cacheKey funs (Strings strings (values ++ surplus))
               = cacheKey funs (Strings strings values))
    by (apply string_raw_surplus, Hlen).
  split; [exact Hk|]. split.
  - intros t h c t1 h1. apply template_same_key. symmetry. exact Hk.
  - clear. simpl. induction strings as [|s rest IH]; [reflexivity|].
    destruct rest as [|s' rest]; [reflexivity|].
    change (s ++ string_raw funs (s' :: rest) [] = s ++ String.concat "" (s' :: rest))%string.
    rewrite IH. reflexivity.
Qed.

Lemma cacheKey_surplus_values_witness :
  cacheKey no_functions (Strings ["p-"; " m-2"] ([VNum 4] ++ [VStr "ignored"]))
  = cacheKey no_functions (Strings ["p-"; " m-2"] [VNum 4]).
Proof.
  apply (cacheKey_surplus_values no_functions ["p-"; " m-2"] [VNum 4] [VStr "ignored"]).
  simpl. lia.
Defined.

(** X19. The class name the element gets: the composed final class name,
    unless the resolved attrs carry a [className] and the predicate
    accepts that name; then the attrs' value replaces it. *)
Theorem render_className_or_attr funs (c : ForwardedComponent) (p : obj)
    (ref : value) :
  obj_get (el_props (result (render funs c p ref))) "className"
  = if fc_shouldForwardProp c "className"
    then match obj_get (resolvedAttrs (fc_attrs c) p) "className" with
         | Some v => Some (Plain v)
         | None => Some (finalClassName (result (resolve funs c p)))
         end
    else Some (finalClassName (result (resolve funs c p))).
Proof.
  rewrite render_get. cbv zeta. simpl String.eqb.
  rewrite resolve_finalProps, resolveProps_get.
  destruct (fc_shouldForwardProp c "className"); [|reflexivity].
  destruct (fc_attrs c) as [a|].
  - rewrite mergePropsWithAttrs_other by discriminate. rewrite rest_get. simpl.
    destruct (obj_get (resolvedAttrs (Some a) p) "className"); reflexivity.
  - rewrite rest_get. reflexivity.
Qed.
